(** * A model of the Hyperstream SDK request pipeline

    Shallow embedding of [src/src/fetch.ts] (class [Fetch]),
    [src/src/errors.ts] (class [HyperstreamApiError]) and the client
    [HyperstreamClient] (the [client] module of the package).

    The transport ([fetch]) is a scripted server: it answers calls in order
    from a list of canned outcomes and records every call it receives. *)

From Stdlib Require Import String Ascii List ZArith Bool Lia.
Import ListNotations.
Open Scope string_scope.
Open Scope Z_scope.
Set Warnings "-register-all".

(** ** JavaScript values *)

(** Values as decoded by [JSON.parse]: an object's keys are distinct, and
    its properties are own data properties. Numbers are the safe integers
    (magnitude below 2^53), the ones chain ids, cursors and status codes
    take; [JNum n] outside that range stands for no JavaScript number.

    A string holds the WTF-8 encoding of a JavaScript string: UTF-8, with a
    lone surrogate (a UTF-16 code unit in 0xD800..0xDFFF not part of a pair)
    written as the three bytes 0xED, 0xA0..0xBF, 0x80..0xBF. *)
Inductive jsval : Type :=
| JUndef
| JNull
| JBool (b : bool)
| JNum (n : Z)
| JStr (s : string)
| JArr (xs : list jsval)
| JObj (fs : list (string * jsval)).

Fixpoint lookup {A} (k : string) (fs : list (string * A)) : option A :=
  match fs with
  | [] => None
  | (k', v) :: fs' => if String.eqb k k' then Some v else lookup k fs'
  end.

(** Assignment to a property of an object literal: an existing key keeps its
    position, a new key is appended. *)
Fixpoint obj_set {A} (fs : list (string * A)) (k : string) (v : A)
  : list (string * A) :=
  match fs with
  | [] => [(k, v)]
  | (k', v') :: fs' =>
      if String.eqb k k' then (k', v) :: fs' else (k', v') :: obj_set fs' k v
  end.

(** [{ ...a, ...b }] *)
Definition obj_merge {A} (a b : list (string * A)) : list (string * A) :=
  fold_left (fun acc kv => obj_set acc (fst kv) (snd kv)) b a.

(** [v?.k], and [v.k] once [v] is known not to be nullish; none of the
    properties read by the client is inherited. *)
Definition get_opt (v : jsval) (k : string) : jsval :=
  match v with
  | JObj fs => match lookup k fs with Some x => x | None => JUndef end
  | _ => JUndef
  end.

Definition nullish (v : jsval) : bool :=
  match v with JUndef | JNull => true | _ => false end.

Definition is_undefined (v : jsval) : bool :=
  match v with JUndef => true | _ => false end.

(** [a ?? b] *)
Definition nullish_coalesce (a b : jsval) : jsval :=
  if nullish a then b else a.

Definition truthy (v : jsval) : bool :=
  match v with
  | JUndef | JNull => false
  | JBool b => b
  | JNum n => negb (n =? 0)
  | JStr s => negb (String.eqb s "")
  | JArr _ | JObj _ => true
  end.

(** [a || b] *)
Definition js_or (a b : jsval) : jsval := if truthy a then a else b.

(** Decimal digits of a number, as [String(n)] prints a safe integer. *)
Fixpoint digits_aux (fuel : nat) (n : Z) (acc : string) : string :=
  match fuel with
  | O => acc
  | S f =>
      let acc' := String (ascii_of_nat (48 + Z.to_nat (n mod 10))) acc in
      if n / 10 =? 0 then acc' else digits_aux f (n / 10) acc'
  end.

Definition Z_to_dec (n : Z) : string :=
  let m := Z.abs n in
  let ds := digits_aux (S (Z.to_nat (Z.log2 m))) m "" in
  if n <? 0 then "-" ++ ds else ds.

Fixpoint join (sep : string) (xs : list string) : string :=
  match xs with
  | [] => ""
  | [x] => x
  | x :: xs' => x ++ sep ++ join sep xs'
  end.

(** [String(v)] (ToString), for a value on which it does not throw (see
    [to_string_throws]). *)
Fixpoint js_to_string (v : jsval) : string :=
  match v with
  | JUndef => "undefined"
  | JNull => "null"
  | JBool true => "true"
  | JBool false => "false"
  | JNum n => Z_to_dec n
  | JStr s => s
  | JArr xs =>
      join "," (map (fun x => match x with
                              | JUndef | JNull => ""
                              | _ => js_to_string x
                              end) xs)
  | JObj _ => "[object Object]"
  end.

(** Whether ToString throws on a decoded value. ToPrimitive of an object
    calls its [toString]; an own [toString] property of a decoded object is
    not callable (JSON holds no functions), so [valueOf] is tried next, which
    returns the object itself, and a [TypeError] is thrown. Without an own
    [toString], [Object.prototype.toString] gives ["[object Object]"]. An
    array converts its elements ([Array.prototype.join]). *)
Fixpoint to_string_throws (v : jsval) : bool :=
  match v with
  | JArr xs => existsb to_string_throws xs
  | JObj fs => match lookup "toString" fs with Some _ => true | None => false end
  | _ => false
  end.

(** ** Errors ([src/src/errors.ts]) *)

(** A thrown value that is not a [HyperstreamApiError]: an [Error] instance
    (name and message) or any other value. *)
Inductive foreign_exn : Type :=
| FxError (name message : string)
| FxValue (v : jsval).

(** The [details] of an API error: a decoded JSON value, or the object
    [{ error }] wrapping a transport failure. *)
Inductive details : Type :=
| DJson (v : jsval)
| DWrapped (error : foreign_exn).

Record HyperstreamApiError : Type := {
  ae_message : string;
  ae_status : Z;
  ae_code : jsval;
  ae_details : details;
  ae_requestId : jsval;
  ae_causeResponseBody : jsval
}.

Inductive thrown : Type :=
| ThApi (e : HyperstreamApiError)
| ThForeign (x : foreign_exn).

(** What a computation gives: a value, or the value it throws. *)
Inductive outcome (A : Type) : Type :=
| Ok (a : A)
| Exn (t : thrown).
Arguments Ok {A} a.
Arguments Exn {A} t.

(** The error built by [new HyperstreamApiError(params)] once
    [super(params.message)] has the message as a string; [requestId ?? null]. *)
Definition mk_api_error (message : string) (status : Z) (code : jsval)
  (det : details) (requestId : jsval) (cause : jsval) : HyperstreamApiError :=
  {| ae_message := message;
     ae_status := status;
     ae_code := code;
     ae_details := det;
     ae_requestId := nullish_coalesce requestId JNull;
     ae_causeResponseBody := cause |}.

(** What ToPrimitive throws for an object it cannot convert. *)
Definition to_primitive_error : thrown :=
  ThForeign (FxError "TypeError" "Cannot convert object to primitive value").

(** [new HyperstreamApiError(params)]: [super(params.message)] (the [Error]
    constructor) converts a message that is not [undefined] with ToString,
    which may throw; an [undefined] message leaves the inherited [""]. *)
Definition new_api_error (message : jsval) (status : Z) (code : jsval)
  (det : details) (requestId : jsval) (cause : jsval) : outcome HyperstreamApiError :=
  if to_string_throws message then Exn to_primitive_error
  else
    let msg := match message with JUndef => "" | _ => js_to_string message end in
    Ok (mk_api_error msg status code det requestId cause).

(** ** Transport: a scripted server *)

(** A [Response]: status, status text, headers (names in lower case, as
    [Headers.get] compares them) and the body as [response.json()] decodes
    it, [None] when the body is empty or not JSON. A response is fresh (its
    body unread), so [response.clone()] succeeds; a transport whose response
    makes [clone()] throw is a transport that throws that error. *)
Record Response : Type := {
  r_status : Z;
  r_statusText : string;
  r_headers : list (string * string);
  r_json : option jsval
}.

Definition response_ok (r : Response) : bool :=
  (200 <=? r_status r) && (r_status r <=? 299).

(** [RequestInit]: method, headers, and the body before [JSON.stringify]. *)
Record RequestInit : Type := {
  ri_method : option string;
  ri_headers : list (string * string);
  ri_body : option jsval
}.

(** What one call of [fetch] does: answer with a response or throw. *)
Inductive fetch_outcome : Type :=
| FResp (r : Response)
| FThrow (t : thrown).

(** The server: outcomes still to give, in call order, and the calls
    received so far (URL and init), oldest first. *)
Record server : Type := {
  srv_script : list fetch_outcome;
  srv_calls : list (string * RequestInit)
}.

Definition mock_fetch (url : string) (init : RequestInit) (s : server)
  : server * fetch_outcome :=
  let calls := (srv_calls s ++ [(url, init)])%list in
  match srv_script s with
  | [] => ({| srv_script := []; srv_calls := calls |},
           FThrow (ThForeign (FxError "Error" "No mock response left for fetch call")))
  | o :: rest => ({| srv_script := rest; srv_calls := calls |}, o)
  end.

(** ** A state and exception monad over the server *)

Definition M (A : Type) : Type := server -> server * outcome A.

Definition ret {A} (a : A) : M A := fun s => (s, Ok a).
Definition throw {A} (t : thrown) : M A := fun s => (s, Exn t).
Definition bind {A B} (m : M A) (k : A -> M B) : M B :=
  fun s => match m s with
           | (s', Ok a) => k a s'
           | (s', Exn t) => (s', Exn t)
           end.
(** [try { m } catch (t) { h(t) }] *)
Definition catch {A} (m : M A) (h : thrown -> M A) : M A :=
  fun s => match m s with
           | (s', Ok a) => (s', Ok a)
           | (s', Exn t) => h t s'
           end.

Notation "x <- m ;; k" := (bind m (fun x => k))
  (at level 61, m at next level, right associativity).

(** [v.k] on a value that may be nullish: a [TypeError] there. *)
Definition get_prop (v : jsval) (k : string) : M jsval :=
  if nullish v
  then throw (ThForeign (FxError "TypeError" ("Cannot read properties of " ++ js_to_string v)))
  else ret (get_opt v k).

(** ** [Fetch] ([src/src/fetch.ts]) *)

(** A [Fetch] as the client constructs it. Its interceptor lists start empty
    and the client never adds to them, so the model is of a client on which
    [addRequestInterceptor] and [addResponseInterceptor] are not called: the
    two interceptor loops of [request] run no iteration and are left out.
    Its default headers are the plain object the client builds. *)
Record Fetch : Type := {
  f_baseURL : option string;
  f_headers : list (string * string)
}.

Record FetchJSONResult : Type := {
  fr_status : Z;
  fr_data : jsval;
  fr_ok : bool;
  fr_raw : Response
}.

(** The result [Fetch.request] builds from a response; a body that does not
    decode is [undefined]. *)
Definition json_result (r : Response) : FetchJSONResult :=
  {| fr_status := r_status r;
     fr_data := match r_json r with Some v => v | None => JUndef end;
     fr_ok := response_ok r;
     fr_raw := r |}.

(** [this.baseURL ? this.baseURL + url : url] *)
Definition full_url (f : Fetch) (url : string) : string :=
  match f_baseURL f with
  | Some b => if String.eqb b "" then url else b ++ url
  | None => url
  end.

(** [Fetch.request], with no interceptor. The call's headers are the plain
    object the client passes, so the spreads merge them key by key. *)
Definition fetch_request (f : Fetch) (url : string) (init : RequestInit)
  : M FetchJSONResult :=
  fun s =>
    let fullUrl := full_url f url in
    let finalInit :=
      {| ri_method := ri_method init;
         ri_headers := obj_merge (f_headers f) (ri_headers init);
         ri_body := ri_body init |} in
    match mock_fetch fullUrl finalInit s with
    | (s', FThrow t) => (s', Exn t)
    | (s', FResp r) => (s', Ok (json_result r))
    end.

(** [Fetch.get] *)
Definition fetch_get (f : Fetch) (url : string) (init : RequestInit)
  : M FetchJSONResult :=
  fetch_request f url
    {| ri_method := Some "GET"; ri_headers := ri_headers init;
       ri_body := ri_body init |}.

(** [Fetch.post] *)
Definition fetch_post (f : Fetch) (url : string) (body : jsval)
  (init : RequestInit) : M FetchJSONResult :=
  fetch_request f url
    {| ri_method := Some "POST";
       ri_headers := obj_merge [("Content-Type", "application/json")]
                               (ri_headers init);
       ri_body := Some body |}.

(** ** [HyperstreamClient] *)

Record HyperstreamClientConfig : Type := {
  cfg_baseUrl : string;
  cfg_headers : option (list (string * string));
  cfg_userAgent : option string
}.

(** The client's state is that of its [Fetch] base; the transport proxy
    holds nothing. *)
Record HyperstreamClient : Type := {
  hc_fetch : Fetch
}.

(** [s.replace(/\/+$/, "")] *)
Fixpoint strip_trailing_slashes (s : string) : string :=
  match s with
  | EmptyString => EmptyString
  | String c rest =>
      let r := strip_trailing_slashes rest in
      if Ascii.eqb c "/"%char && String.eqb r "" then "" else String c r
  end.

(** [new HyperstreamClient(config)]. The transport, [config.fetch ??
    globalThis.fetch], is the scripted server either way; the model is of a
    runtime with a global [fetch] (Bun, Node 18 and later, browsers), where
    the [Fetch] constructor's "global fetch is not available" check does not
    throw. *)
Definition new_client (config : HyperstreamClientConfig)
  : outcome HyperstreamClient :=
  if String.eqb (cfg_baseUrl config) ""
  then Exn (ThForeign (FxError "Error" "HyperstreamClient: `baseUrl` is required."))
  else
    let stripped := strip_trailing_slashes (cfg_baseUrl config) in
    let normalizedBase :=
      if String.eqb stripped "" then cfg_baseUrl config else stripped in
    let headers0 := match cfg_headers config with Some h => h | None => [] end in
    let headers :=
      match cfg_userAgent config with
      | Some ua => if String.eqb ua "" then headers0
                   else obj_set headers0 "User-Agent" ua
      | None => headers0
      end in
    Ok {| hc_fetch := {| f_baseURL := Some normalizedBase;
                         f_headers := headers |} |}.

(** [normalizeTransportError] *)
Definition normalizeTransportError (error : thrown) : HyperstreamApiError :=
  match error with
  | ThApi e => e
  | ThForeign x =>
      let message :=
        match x with
        | FxError _ m => m
        | FxValue _ => "Hyperstream transport request failed"
        end in
      mk_api_error message 0 (JStr "TransportError") (DWrapped x) JUndef JUndef
  end.

(** The two methods of the transport proxy. *)
Definition transport_get (c : HyperstreamClient) (url : string)
  (init : RequestInit) : M FetchJSONResult :=
  catch (fetch_get (hc_fetch c) url init)
        (fun t => throw (ThApi (normalizeTransportError t))).

Definition transport_post (c : HyperstreamClient) (url : string)
  (body : jsval) (init : RequestInit) : M FetchJSONResult :=
  catch (fetch_post (hc_fetch c) url body init)
        (fun t => throw (ThApi (normalizeTransportError t))).

Record ClientRequestConfig : Type := {
  rc_path : string;
  rc_method : option string;
  rc_body : jsval;
  rc_query : option (list (string * jsval));
  rc_headers : option (list (string * string))
}.

(** [result.raw?.headers.get(name)] *)
Definition header_get (r : Response) (name : string) : jsval :=
  match lookup name (r_headers r) with Some v => JStr v | None => JNull end.

(** The error [executeRequest] builds for a result with [!result.ok]: a
    [HyperstreamApiError], or what its constructor throws. *)
Definition api_error_of_result (result : FetchJSONResult)
  : outcome HyperstreamApiError :=
  let payload := fr_data result in
  let message :=
    js_or (get_opt payload "message")
      (js_or (get_opt payload "error")
         (js_or (JStr (r_statusText (fr_raw result)))
            (JStr "Hyperstream API request failed"))) in
  new_api_error message (fr_status result)
    (nullish_coalesce (get_opt payload "code") JUndef)
    (DJson (nullish_coalesce (get_opt payload "details") payload))
    (header_get (fr_raw result) "x-request-id")
    payload.

(** [executeRequest] *)
Definition executeRequest (c : HyperstreamClient) (path : string)
  (config : ClientRequestConfig) : M jsval :=
  let headers :=
    obj_merge [("Accept", "application/json")]
      (match rc_headers config with Some h => h | None => [] end) in
  let method := match rc_method config with Some m => m | None => "GET" end in
  let init := {| ri_method := None; ri_headers := headers; ri_body := None |} in
  result <- (if String.eqb method "GET"
             then transport_get c path init
             else transport_post c path (rc_body config) init) ;;
  if negb (fr_ok result)
  then match api_error_of_result result with
       | Ok e => throw (ThApi e)
       | Exn t => throw t
       end
  else ret (fr_data result).

(** *** Percent-encoding *)

Definition hex_digit (n : nat) : ascii :=
  if Nat.ltb n 10 then ascii_of_nat (48 + n) else ascii_of_nat (55 + n).

Definition percent_byte (c : ascii) : string :=
  String "%" (String (hex_digit (Nat.div (nat_of_ascii c) 16))
                (String (hex_digit (Nat.modulo (nat_of_ascii c) 16)) "")).

Definition is_alnum (c : ascii) : bool :=
  let n := nat_of_ascii c in
  (Nat.leb 48 n && Nat.leb n 57) || (Nat.leb 65 n && Nat.leb n 90)
  || (Nat.leb 97 n && Nat.leb n 122).

Definition in_chars (c : ascii) (set : string) : bool :=
  existsb (Ascii.eqb c) (list_ascii_of_string set).

(** The [application/x-www-form-urlencoded] serializer of
    [URLSearchParams.toString] (on UTF-8 bytes). *)
Fixpoint form_urlencode (s : string) : string :=
  match s with
  | EmptyString => ""
  | String c r =>
      (if Ascii.eqb c " "%char then "+"
       else if is_alnum c || in_chars c "*-._" then String c ""
       else percent_byte c) ++ form_urlencode r
  end.

(** The escaping of [encodeURIComponent] on the UTF-8 bytes of a string
    that has no lone surrogate: the unreserved characters are kept, every
    other byte is written [%XX]. *)
Fixpoint percent_encode (s : string) : string :=
  match s with
  | EmptyString => ""
  | String c r =>
      (if is_alnum c || in_chars c "-_.!~*'()" then String c ""
       else percent_byte c) ++ percent_encode r
  end.

(** Whether a (WTF-8) string holds a lone surrogate: a byte 0xED followed by
    a byte in 0xA0..0xBF. *)
Fixpoint has_lone_surrogate (s : string) : bool :=
  match s with
  | EmptyString => false
  | String c r =>
      match r with
      | String d _ =>
          Nat.eqb (nat_of_ascii c) 237
          && Nat.leb 160 (nat_of_ascii d) && Nat.leb (nat_of_ascii d) 191
      | EmptyString => false
      end || has_lone_surrogate r
  end.

(** What [encodeURIComponent] throws for a lone surrogate. *)
Definition uri_error : thrown := ThForeign (FxError "URIError" "URI malformed").

(** [encodeURIComponent]: [None] when it throws its [URIError]. *)
Definition encodeURIComponent (s : string) : option string :=
  if has_lone_surrogate s then None else Some (percent_encode s).

(** *** [URLSearchParams] *)

(** [params.set(k, v)]: replaces the first pair named [k] and removes the
    others, or appends. [set] takes USVStrings, which would replace a lone
    surrogate by U+FFFD; keys and values are taken here as they are, so the
    model is of queries whose strings have no lone surrogate. No method of
    the client passes a query. *)
Fixpoint usp_set (ps : list (string * string)) (k v : string)
  : list (string * string) :=
  match ps with
  | [] => [(k, v)]
  | (k', v') :: r =>
      if String.eqb k k'
      then (k', v) :: filter (fun kv => negb (String.eqb k (fst kv))) r
      else (k', v') :: usp_set r k v
  end.

(** [params.toString()] *)
Definition usp_toString (ps : list (string * string)) : string :=
  join "&" (map (fun kv => form_urlencode (fst kv) ++ "=" ++ form_urlencode (snd kv)) ps).

(** The loop of [buildPathWithQuery] over [Object.entries(query)]. *)
Definition query_params (query : list (string * jsval)) : list (string * string) :=
  fold_left (fun params kv =>
               if nullish (snd kv) then params
               else usp_set params (fst kv) (js_to_string (snd kv)))
            query [].

(** [buildPathWithQuery]; a query is an object, listed in the order of
    [Object.entries]. *)
Definition buildPathWithQuery (path : string)
  (query : option (list (string * jsval))) : string :=
  let normalizedPath := if String.prefix "/" path then path else "/" ++ path in
  match query with
  | None => normalizedPath
  | Some q =>
      let queryString := usp_toString (query_params q) in
      if String.eqb queryString "" then normalizedPath
      else normalizedPath ++ "?" ++ queryString
  end.

(** *** Dispatch and the facade *)

Definition dispatchRequest (c : HyperstreamClient) (config : ClientRequestConfig)
  : M jsval :=
  executeRequest c (buildPathWithQuery (rc_path config) (rc_query config)) config.

Definition getJson (c : HyperstreamClient) (path : string) : M jsval :=
  dispatchRequest c {| rc_path := path; rc_method := Some "GET"; rc_body := JUndef;
                       rc_query := None; rc_headers := None |}.

Definition postJson (c : HyperstreamClient) (path : string) (body : jsval) : M jsval :=
  dispatchRequest c {| rc_path := path; rc_method := Some "POST"; rc_body := body;
                       rc_query := None; rc_headers := None |}.

Definition is_hex_digit (c : ascii) : bool :=
  let n := nat_of_ascii c in
  (Nat.leb 48 n && Nat.leb n 57) || (Nat.leb 65 n && Nat.leb n 70)
  || (Nat.leb 97 n && Nat.leb n 102).

(** [isHexLike]: [/^0x[0-9a-fA-F]+$/.test(value)] *)
Definition isHexLike (value : string) : bool :=
  match value with
  | String z (String x (String c rest)) =>
      Ascii.eqb z "0"%char && Ascii.eqb x "x"%char && is_hex_digit c
      && forallb is_hex_digit (list_ascii_of_string rest)
  | _ => false
  end.

(** The path [getToken] requests: [None] when [encodeURIComponent] throws. *)
Definition token_path (chainId : Z) (identifier : string) : option string :=
  match encodeURIComponent identifier with
  | None => None
  | Some encodedIdentifier =>
      Some (if isHexLike identifier
            then "/v1/tokens/" ++ Z_to_dec chainId ++ "/" ++ encodedIdentifier
            else "/v1/tokens/" ++ Z_to_dec chainId ++ "/symbol/" ++ encodedIdentifier)
  end.

(** [getToken]; [null] is [JNull]. The identifier is encoded before the
    [try], so a [URIError] is thrown as it is. *)
Definition getToken (c : HyperstreamClient) (chainId : Z) (identifier : string)
  : M jsval :=
  match token_path chainId identifier with
  | None => throw uri_error
  | Some path =>
      catch (getJson c path)
        (fun error =>
           match error with
           | ThApi e =>
               if (ae_status e =? 404) || (ae_status e =? 400) then ret JNull
               else throw error
           | _ => throw error
           end)
  end.

(** The path [getIntentByDeposit] requests: [None] when
    [encodeURIComponent] throws. *)
Definition by_deposit_path (chainId : Z) (txHash : string) : option string :=
  match encodeURIComponent txHash with
  | None => None
  | Some encoded => Some ("/v1/intent/by-deposit/" ++ Z_to_dec chainId ++ "/" ++ encoded)
  end.

(** [getIntentByDeposit]: here the encoding is inside the [try]; its
    [URIError] is not a [HyperstreamApiError] and is rethrown. *)
Definition getIntentByDeposit (c : HyperstreamClient) (chainId : Z)
  (txHash : string) : M jsval :=
  catch (match by_deposit_path chainId txHash with
         | None => throw uri_error
         | Some path => getJson c path
         end)
    (fun error =>
       match error with
       | ThApi e => if ae_status e =? 404 then ret JNull else throw error
       | _ => throw error
       end).

(** [response.status === "accepted"] *)
Definition is_accepted (v : jsval) : bool :=
  match v with JStr s => String.eqb s "accepted" | _ => false end.

(** [submitDeposit] *)
Definition submitDeposit (c : HyperstreamClient) (request : jsval) : M bool :=
  response <- postJson c "/v1/deposits/submit" request ;;
  if negb (truthy response) then ret false
  else ret (is_accepted (get_opt response "status")).

(** *** [searchTokens]: the async generator *)

(** A [SearchTokensRequest] is an object. *)
Definition SearchTokensRequest := list (string * jsval).

Inductive iter_result : Type :=
| Yielded (v : jsval)
| Finished.

(** The generator's states: not started, suspended at [yield page.data]
    (with the locals it resumes with), completed. *)
Inductive search_gen : Type :=
| SGStart (request : SearchTokensRequest)
| SGSuspended (request : SearchTokensRequest) (page : jsval)
| SGDone.

(** One pass of the loop body, up to [yield page.data]. *)
Definition search_iteration (c : HyperstreamClient) (request : SearchTokensRequest)
  (cursor : jsval) : M (iter_result * search_gen) :=
  let payload := JObj (obj_set request "cursor" cursor) in
  page <- postJson c "/v1/tokens/search" payload ;;
  data <- get_prop page "data" ;;
  ret (Yielded data, SGSuspended request page).

(** [generator.next()] *)
Definition searchTokens_next (c : HyperstreamClient) (g : search_gen)
  : M (iter_result * search_gen) :=
  match g with
  | SGStart request =>
      let cursor := match lookup "cursor" request with Some v => v | None => JUndef end in
      search_iteration c request cursor
  | SGSuspended request page =>
      pc <- get_prop page "cursor" ;;
      let cursor := nullish_coalesce pc JUndef in
      if is_undefined cursor then ret (Finished, SGDone)
      else search_iteration c request cursor
  | SGDone => ret (Finished, SGDone)
  end.

(** [searchTokens(request)] *)
Definition searchTokens (request : SearchTokensRequest) : search_gen :=
  SGStart request.

Inductive loop_end : Type :=
| LoopDone
| LoopThrew (t : thrown)
| LoopOutOfFuel.

(** [for await (const batch of gen) { ... }], collecting the batches; the
    loop is cut after [fuel] calls of [next()]. *)
Fixpoint for_await (fuel : nat) (c : HyperstreamClient) (g : search_gen)
  (s : server) : server * (list jsval * loop_end) :=
  match fuel with
  | O => (s, ([], LoopOutOfFuel))
  | S f =>
      match searchTokens_next c g s with
      | (s', Exn t) => (s', ([], LoopThrew t))
      | (s', Ok (Finished, _)) => (s', ([], LoopDone))
      | (s', Ok (Yielded v, g')) =>
          let '(s'', (vs, e)) := for_await f c g' s' in (s'', (v :: vs, e))
      end
  end.

(** ** Scripted pages and failures *)

(** A successful search page [{ data, cursor }], the cursor field left out
    when [None]. *)
Definition page_body (items : list jsval) (cursor : option jsval) : jsval :=
  JObj (("data", JArr items) ::
        match cursor with Some cv => [("cursor", cv)] | None => [] end).

Definition page_response (items : list jsval) (cursor : option jsval)
  : fetch_outcome :=
  FResp {| r_status := 200; r_statusText := "";
           r_headers := [("content-type", "application/json")];
           r_json := Some (page_body items cursor) |}.

(** The cursor a dispatched search request carries. *)
Definition call_cursor (call : string * RequestInit) : jsval :=
  match ri_body (snd call) with Some b => get_opt b "cursor" | None => JUndef end.

(** The [HyperstreamApiError] the dispatcher throws for a transport
    outcome, if it throws one: a non-2xx response (when the error's message
    converts to a string) or a thrown transport failure. *)
Definition outcome_error (o : fetch_outcome) : option HyperstreamApiError :=
  match o with
  | FResp r => if response_ok r then None
               else match api_error_of_result (json_result r) with
                    | Ok e => Some e
                    | Exn _ => None
                    end
  | FThrow t => Some (normalizeTransportError t)
  end.

(** What the dispatcher throws for a transport outcome, if it throws. *)
Definition outcome_thrown (o : fetch_outcome) : option thrown :=
  match o with
  | FResp r => if response_ok r then None
               else match api_error_of_result (json_result r) with
                    | Ok e => Some (ThApi e)
                    | Exn t => Some t
                    end
  | FThrow t => Some (ThApi (normalizeTransportError t))
  end.

(** The generator is about to dispatch a request carrying [cursor]. *)
Definition ready (g : search_gen) (request : SearchTokensRequest) (cursor : jsval) : Prop :=
  (g = SGStart request /\
   cursor = match lookup "cursor" request with Some v => v | None => JUndef end)
  \/ (exists items n, g = SGSuspended request (page_body items (Some (JNum n)))
                      /\ cursor = JNum n).

(** The script of a server answering with cursor-bearing pages [prefix]
    (items, cursor), then a page [last] without a cursor field. *)
Definition pages_script (prefix : list (list jsval * Z)) (last : list jsval)
  : list fetch_outcome :=
  (map (fun p => page_response (fst p) (Some (JNum (snd p)))) prefix
   ++ [page_response last None])%list.

(** A run of [n] slashes. *)
Fixpoint slashes (n : nat) : string :=
  match n with O => "" | S m => String "/" (slashes m) end.

(** The pattern [/^0x[0-9a-fA-F]+$/], stated on its own: ["0x"] followed by
    one or more hexadecimal digits and nothing else. *)
Definition hex_char (c : ascii) : Prop :=
  let n := nat_of_ascii c in
  (48 <= n <= 57)%nat \/ (65 <= n <= 70)%nat \/ (97 <= n <= 102)%nat.

Definition matches_hex_pattern (value : string) : Prop :=
  exists d rest, value = String "0"%char (String "x"%char (String d rest))
                 /\ Forall hex_char (d :: list_ascii_of_string rest).

(** ** The rest of the facade *)

(** [quotes] *)
Definition quotes (c : HyperstreamClient) (request : jsval) : M jsval :=
  postJson c "/v1/quotes" request.

(** [getChains] *)
Definition getChains (c : HyperstreamClient) : M jsval :=
  getJson c "/v1/chains".

(** The path [getIntentStatus] requests: [None] when [encodeURIComponent]
    throws. *)
Definition intent_path (intent : string) : option string :=
  match encodeURIComponent intent with
  | None => None
  | Some encoded => Some ("/v1/intent/" ++ encoded)
  end.

(** [getIntentStatus] *)
Definition getIntentStatus (c : HyperstreamClient) (intent : string) : M jsval :=
  match intent_path intent with
  | None => throw uri_error
  | Some path => getJson c path
  end.

(** [createHyperstreamClient] (the package entry point) *)
Definition createHyperstreamClient (config : HyperstreamClientConfig)
  : outcome HyperstreamClient :=
  new_client config.

(** A computation whose every exception satisfies [P]. *)
Definition throws_only {A} (P : thrown -> Prop) (m : M A) : Prop :=
  forall s, match snd (m s) with Exn t => P t | Ok _ => True end.

(** The exceptions of the facade: a [HyperstreamApiError], the [TypeError]
    of its constructor for a message that does not convert, and, when
    [encodes] is [true], the [URIError] of [encodeURIComponent]. *)
Definition facade_exception (encodes : bool) (t : thrown) : Prop :=
  match t with
  | ThApi _ => True
  | ThForeign _ => t = to_primitive_error \/ (encodes = true /\ t = uri_error)
  end.

(** The single request [m] sends from [s], if it sends exactly one. *)
Definition sends_one {A} (m : M A) (s : server) (call : string * RequestInit) : Prop :=
  srv_calls (fst (m s)) = (srv_calls s ++ [call])%list.

(** A request of a search loop over [request]: a POST of [request], with
    some cursor set, to the search route. *)
Definition search_request (c : HyperstreamClient) (request : SearchTokensRequest)
  (call : string * RequestInit) : Prop :=
  fst call = full_url (hc_fetch c) "/v1/tokens/search"
  /\ ri_method (snd call) = Some "POST"
  /\ exists cursor, ri_body (snd call) = Some (JObj (obj_set request "cursor" cursor)).

(** A state of the generator [searchTokens(request)]: its request is
    [request], and a page it is suspended on is not nullish. *)
Definition gen_of (request : SearchTokensRequest) (g : search_gen) : Prop :=
  match g with
  | SGStart r => r = request
  | SGSuspended r p => r = request /\ nullish p = false
  | SGDone => True
  end.

(** A reader of decimal numerals (optional [-] then digits), to show that
    [String(n)] of an integer loses nothing. *)
Fixpoint dec_value (s : string) (v : Z) : Z :=
  match s with
  | EmptyString => v
  | String c r => dec_value r (10 * v + (Z.of_nat (nat_of_ascii c) - 48))
  end.

Definition parse_dec (s : string) : Z :=
  match s with
  | String c r => if Ascii.eqb c "-" then - dec_value r 0 else dec_value s 0
  | EmptyString => 0
  end.

Definition is_digit (c : ascii) : bool :=
  Nat.leb 48 (nat_of_ascii c) && Nat.leb (nat_of_ascii c) 57.

(** ** Facts about the model *)

Lemma lookup_obj_set {A} (fs : list (string * A)) k v :
  lookup k (obj_set fs k v) = Some v.
Proof.
  induction fs as [|[k' v'] fs IH]; simpl.
  - rewrite String.eqb_refl. reflexivity.
  - destruct (String.eqb k k') eqn:E; simpl; rewrite ?E; auto.
Qed.

Ltac unfold_dispatch :=
  unfold search_iteration, postJson, getJson, dispatchRequest, executeRequest,
    transport_post, transport_get, fetch_post, fetch_get, fetch_request, full_url,
    catch, bind, ret, throw, mock_fetch, get_prop; simpl.

(** A dispatched search request that the server answers with a page. *)
Lemma search_iteration_page c request cursor items cu rest calls :
  exists call,
    search_iteration c request cursor
      {| srv_script := page_response items cu :: rest; srv_calls := calls |}
    = ({| srv_script := rest; srv_calls := calls ++ [call] |},
       Ok (Yielded (JArr items), SGSuspended request (page_body items cu)))
    /\ call_cursor call = cursor.
Proof.
  unfold_dispatch. eexists. split; [reflexivity|].
  unfold call_cursor; simpl. rewrite lookup_obj_set. reflexivity.
Qed.

Ltac unfold_dispatch_error :=
  unfold search_iteration, postJson, getJson, dispatchRequest, executeRequest,
    transport_post, transport_get, fetch_post, fetch_get, fetch_request, full_url,
    catch, bind, ret, throw, mock_fetch, get_prop; cbn -[api_error_of_result].

Lemma outcome_error_thrown o e :
  outcome_error o = Some e -> outcome_thrown o = Some (ThApi e).
Proof.
  destruct o as [r|t]; simpl; [|congruence].
  destruct (response_ok r); [discriminate|].
  destruct (api_error_of_result (json_result r)); congruence.
Qed.

(** The one request [executeRequest] sends. *)
Lemma executeRequest_call c path config s :
  let method := match rc_method config with Some m => m | None => "GET" end in
  let H := obj_merge [("Accept", "application/json")]
             (match rc_headers config with Some h => h | None => [] end) in
  sends_one (executeRequest c path config) s
    (full_url (hc_fetch c) path,
     if String.eqb method "GET"
     then {| ri_method := Some "GET"; ri_headers := obj_merge (f_headers (hc_fetch c)) H;
             ri_body := None |}
     else {| ri_method := Some "POST";
             ri_headers := obj_merge (f_headers (hc_fetch c))
                             (obj_merge [("Content-Type", "application/json")] H);
             ri_body := Some (rc_body config) |}).
Proof.
  intros method H. unfold sends_one.
  unfold executeRequest, transport_get, transport_post, fetch_get, fetch_post,
    fetch_request, catch, bind, throw, ret, mock_fetch. fold method. fold H.
  destruct (String.eqb method "GET"); cbn -[api_error_of_result];
    destruct (srv_script s) as [|[r|t] l]; cbn -[api_error_of_result]; try reflexivity;
    destruct (response_ok r); cbn -[api_error_of_result]; try reflexivity;
    destruct (api_error_of_result (json_result r)); reflexivity.
Qed.

(** A handler that sends nothing leaves the requests of the [try] block. *)
Lemma catch_calls {A} (m : M A) (h : thrown -> M A) s :
  (forall t s', srv_calls (fst (h t s')) = srv_calls s') ->
  srv_calls (fst (catch m h s)) = srv_calls (fst (m s)).
Proof.
  intros Hh. unfold catch. destruct (m s) as [s' [a|t]]; [reflexivity|apply Hh].
Qed.

(** The dispatcher's answer to a response. *)
Lemma executeRequest_response c path config r rest calls :
  exists call,
    executeRequest c path config {| srv_script := FResp r :: rest; srv_calls := calls |}
    = ({| srv_script := rest; srv_calls := calls ++ [call] |},
       if response_ok r then Ok (match r_json r with Some v => v | None => JUndef end)
       else match api_error_of_result (json_result r) with
            | Ok e => Exn (ThApi e)
            | Exn t => Exn t
            end).
Proof.
  unfold executeRequest, transport_get, transport_post, fetch_get, fetch_post,
    fetch_request, catch, bind, throw, ret, mock_fetch.
  destruct (String.eqb _ "GET"); cbn -[api_error_of_result];
    destruct (response_ok r); cbn -[api_error_of_result];
    try (eexists; reflexivity);
    destruct (api_error_of_result (json_result r)); eexists; reflexivity.
Qed.

(** A dispatched search request that fails at the transport or with a
    non-2xx status. *)
Lemma search_iteration_failure c request cursor o t rest calls :
  outcome_thrown o = Some t ->
  exists call,
    search_iteration c request cursor
      {| srv_script := o :: rest; srv_calls := calls |}
    = ({| srv_script := rest; srv_calls := calls ++ [call] |}, Exn t)
    /\ call_cursor call = cursor.
Proof.
  intros H. destruct o as [r|t']; simpl in H.
  - destruct (response_ok r) eqn:Ok_r; [discriminate|].
    unfold_dispatch_error. rewrite Ok_r. cbn -[api_error_of_result].
    destruct (api_error_of_result (json_result r)) as [e|t'];
      injection H as <-; eexists; (split; [reflexivity|]);
      unfold call_cursor; simpl; rewrite lookup_obj_set; reflexivity.
  - injection H as <-. unfold_dispatch. eexists. split; [reflexivity|].
    unfold call_cursor; simpl. rewrite lookup_obj_set. reflexivity.
Qed.

Lemma next_ready c g request cursor :
  ready g request cursor ->
  searchTokens_next c g = search_iteration c request cursor.
Proof.
  intros [[-> ->] | (items & n & -> & ->)]; reflexivity.
Qed.

Lemma next_after_last c request items s :
  searchTokens_next c (SGSuspended request (page_body items None)) s
  = (s, Ok (Finished, SGDone)).
Proof. reflexivity. Qed.

Lemma run_pages c request prefix : forall last extra g cursor calls k,
  ready g request cursor ->
  exists new_calls,
    for_await (length prefix + 2 + k) c g
      {| srv_script := pages_script prefix last ++ extra; srv_calls := calls |}
    = ({| srv_script := extra; srv_calls := calls ++ new_calls |},
       ((map (fun p => JArr (fst p)) prefix ++ [JArr last])%list, LoopDone))
    /\ map call_cursor new_calls = cursor :: map (fun p => JNum (snd p)) prefix.
Proof.
  induction prefix as [|p prefix IH]; intros last extra g cursor calls k Hr.
  - destruct (search_iteration_page c request cursor last None extra calls)
      as [call [E Hc]].
    exists [call]. cbn -[searchTokens_next search_iteration].
    rewrite (next_ready c g request cursor Hr), E. simpl.
    split; [reflexivity|]. rewrite Hc. reflexivity.
  - destruct (search_iteration_page c request cursor (fst p) (Some (JNum (snd p)))
                (pages_script prefix last ++ extra) calls) as [call [E Hc]].
    replace (length (p :: prefix) + 2 + k)%nat
      with (S (length prefix + 2 + k)) by (simpl; lia).
    assert (Hr' : ready (SGSuspended request (page_body (fst p) (Some (JNum (snd p)))))
                        request (JNum (snd p))) by (right; eauto).
    destruct (IH last extra _ _ (calls ++ [call])%list k Hr') as [nc [E' Hc']].
    exists (call :: nc).
    cbn -[searchTokens_next search_iteration pages_script].
    rewrite (next_ready c g request cursor Hr).
    change (pages_script (p :: prefix) last ++ extra)%list
      with (page_response (fst p) (Some (JNum (snd p)))
              :: pages_script prefix last ++ extra)%list.
    rewrite E. cbn -[pages_script]. rewrite E'.
    rewrite <- app_assoc. simpl. split; [reflexivity|].
    rewrite Hc, Hc'. reflexivity.
Qed.

Lemma run_pages_failure c request prefix : forall bad t extra g cursor calls k,
  outcome_thrown bad = Some t ->
  ready g request cursor ->
  exists new_calls,
    for_await (length prefix + 1 + k) c g
      {| srv_script :=
           (map (fun p => page_response (fst p) (Some (JNum (snd p)))) prefix
            ++ bad :: extra)%list;
         srv_calls := calls |}
    = ({| srv_script := extra; srv_calls := calls ++ new_calls |},
       (map (fun p => JArr (fst p)) prefix, LoopThrew t))
    /\ map call_cursor new_calls = cursor :: map (fun p => JNum (snd p)) prefix.
Proof.
  induction prefix as [|p prefix IH]; intros bad t extra g cursor calls k He Hr.
  - destruct (search_iteration_failure c request cursor bad t extra calls He)
      as [call [E Hc]].
    exists [call]. cbn -[searchTokens_next search_iteration].
    rewrite (next_ready c g request cursor Hr), E.
    split; [reflexivity|]. rewrite Hc. reflexivity.
  - set (rest := (map (fun p => page_response (fst p) (Some (JNum (snd p)))) prefix
                  ++ bad :: extra)%list).
    destruct (search_iteration_page c request cursor (fst p) (Some (JNum (snd p)))
                rest calls) as [call [E Hc]].
    replace (length (p :: prefix) + 1 + k)%nat
      with (S (length prefix + 1 + k)) by (simpl; lia).
    assert (Hr' : ready (SGSuspended request (page_body (fst p) (Some (JNum (snd p)))))
                        request (JNum (snd p))) by (right; eauto).
    destruct (IH bad t extra _ _ (calls ++ [call])%list k He Hr') as [nc [E' Hc']].
    exists (call :: nc).
    cbn -[searchTokens_next search_iteration].
    rewrite (next_ready c g request cursor Hr).
    fold rest. rewrite E. cbn -[rest]. unfold rest. rewrite E'.
    rewrite <- app_assoc. simpl. split; [reflexivity|].
    rewrite Hc, Hc'. reflexivity.
Qed.



Lemma postJson_success c path body r rest calls :
  response_ok r = true ->
  snd (postJson c path body {| srv_script := FResp r :: rest; srv_calls := calls |})
  = Ok (fr_data (json_result r)).
Proof.
  intros Ok_r. unfold_dispatch. rewrite Ok_r. reflexivity.
Qed.

(** ** Pagination *)

(** C1: when the server answers the pages of [prefix], each with a cursor,
    and then a page [last] without a cursor field, consuming
    [searchTokens(request)] yields one batch per page, each the page's
    [data] array in server order, dispatches exactly one request per page
    (the first with the request's cursor, each next one with the previous
    page's cursor) and ends; the server's further outcomes [extra] are never
    requested. *)
Theorem searchTokens_one_batch_per_page c request prefix last extra calls k :
  exists new_calls,
    for_await (length prefix + 2 + k) c (searchTokens request)
      {| srv_script := pages_script prefix last ++ extra; srv_calls := calls |}
    = ({| srv_script := extra; srv_calls := calls ++ new_calls |},
       ((map (fun p => JArr (fst p)) prefix ++ [JArr last])%list, LoopDone))
    /\ length new_calls = S (length prefix)
    /\ map call_cursor new_calls =
         match lookup "cursor" request with Some v => v | None => JUndef end
         :: map (fun p => JNum (snd p)) prefix.
Proof.
  destruct (run_pages c request prefix last extra (SGStart request)
              (match lookup "cursor" request with Some v => v | None => JUndef end)
              calls k) as [nc [E Hc]].
  { left. split; reflexivity. }
  exists nc. split; [exact E|]. split; [|exact Hc].
  apply (f_equal (@length jsval)) in Hc. rewrite length_map in Hc.
  rewrite Hc. simpl. rewrite length_map. reflexivity.
Qed.

(** C2: when the first N-1 dispatches are answered with cursor-bearing pages
    and the Nth fails (a non-2xx response or a transport failure), whose
    [HyperstreamApiError] is [e], the consumer receives exactly the N-1
    batches and then the sequence throws [e]; exactly N requests are
    dispatched and no further one (no retry). *)
Theorem searchTokens_fails_at_failing_page c request prefix bad e extra calls k :
  outcome_error bad = Some e ->
  exists new_calls,
    for_await (length prefix + 1 + k) c (searchTokens request)
      {| srv_script :=
           (map (fun p => page_response (fst p) (Some (JNum (snd p)))) prefix
            ++ bad :: extra)%list;
         srv_calls := calls |}
    = ({| srv_script := extra; srv_calls := calls ++ new_calls |},
       (map (fun p => JArr (fst p)) prefix, LoopThrew (ThApi e)))
    /\ length new_calls = S (length prefix).
Proof.
  intros He.
  destruct (run_pages_failure c request prefix bad (ThApi e) extra (SGStart request)
              (match lookup "cursor" request with Some v => v | None => JUndef end)
              calls k (outcome_error_thrown bad e He)) as [nc [E Hc]].
  { left. split; reflexivity. }
  exists nc. split; [exact E|].
  apply (f_equal (@length jsval)) in Hc. rewrite length_map in Hc.
  rewrite Hc. simpl. rewrite length_map. reflexivity.
Qed.

Lemma searchTokens_fails_at_failing_page_witness :
  let r := {| r_status := 500; r_statusText := "";
              r_headers := [("content-type", "application/json")];
              r_json := Some (JObj [("message", JStr "Boom")]) |} in
  let e := mk_api_error "Boom" 500 JUndef (DJson (JObj [("message", JStr "Boom")])) JNull
             (JObj [("message", JStr "Boom")]) in
  outcome_error (FResp r) = Some e /\
  exists new_calls,
    for_await (length [([JNum 1], 99)] + 1 + 0)
      {| hc_fetch := {| f_baseURL := Some "https://api.test.hyperstream.xyz";
                        f_headers := [] |} |}
      (searchTokens [("q", JStr "USDC")])
      {| srv_script :=
           (map (fun p => page_response (fst p) (Some (JNum (snd p)))) [([JNum 1], 99)]
            ++ FResp r :: [])%list;
         srv_calls := [] |}
    = ({| srv_script := []; srv_calls := [] ++ new_calls |},
       (map (fun p => JArr (fst p)) [([JNum 1], 99)],
        LoopThrew (ThApi e)))
    /\ length new_calls = S (length [([JNum 1], 99)]).
Proof.
  intros r e. split; [reflexivity|].
  apply searchTokens_fails_at_failing_page. reflexivity.
Defined.

Lemma search_iteration_records c request cursor s :
  exists call,
    srv_calls (fst (search_iteration c request cursor s)) = (srv_calls s ++ [call])%list
    /\ call_cursor call = cursor.
Proof.
  destruct s as [script calls].
  unfold_dispatch_error.
  eexists. split.
  - destruct script as [|o rest]; cbn -[api_error_of_result]; [reflexivity|].
    destruct o as [r|t]; cbn -[api_error_of_result]; [|reflexivity].
    destruct (response_ok r); cbn -[api_error_of_result];
      [|destruct (api_error_of_result _); reflexivity].
    destruct (r_json r) as [v|]; simpl; [destruct (nullish v)|]; reflexivity.
  - unfold call_cursor; simpl. rewrite lookup_obj_set. reflexivity.
Qed.

Lemma next_after_null c request items s :
  searchTokens_next c (SGSuspended request (page_body items (Some JNull))) s
  = (s, Ok (Finished, SGDone)).
Proof. reflexivity. Qed.

(** A run of the loop through cursor-bearing pages [prefix]: the batches of
    [prefix], then whatever the loop does from the state that dispatches
    the last page's cursor. *)
Lemma run_prefix c request prefix : forall g cursor rest calls fuel,
  ready g request cursor ->
  exists new_calls g' cursor',
    ready g' request cursor'
    /\ (map call_cursor new_calls ++ [cursor'] = cursor :: map (fun p => JNum (snd p)) prefix)%list
    /\ for_await (length prefix + fuel) c g
         {| srv_script :=
              (map (fun p => page_response (fst p) (Some (JNum (snd p)))) prefix ++ rest)%list;
            srv_calls := calls |}
       = let r := for_await fuel c g'
                    {| srv_script := rest; srv_calls := (calls ++ new_calls)%list |} in
         (fst r, ((map (fun p => JArr (fst p)) prefix ++ fst (snd r))%list, snd (snd r))).
Proof.
  induction prefix as [|p prefix IH]; intros g cursor rest calls fuel Hr.
  - exists [], g, cursor. split; [exact Hr|]. split; [reflexivity|].
    cbn -[for_await]. rewrite app_nil_r.
    destruct (for_await fuel c g {| srv_script := rest; srv_calls := calls |})
      as [s' [vs e]]. reflexivity.
  - destruct (search_iteration_page c request cursor (fst p) (Some (JNum (snd p)))
                ((map (fun p => page_response (fst p) (Some (JNum (snd p)))) prefix
                  ++ rest)%list) calls) as [call [E Hc]].
    assert (Hr' : ready (SGSuspended request (page_body (fst p) (Some (JNum (snd p)))))
                        request (JNum (snd p))) by (right; eauto).
    destruct (IH _ _ rest (calls ++ [call])%list fuel Hr')
      as [nc [g' [cursor' [Hg' [Hc' E']]]]].
    exists (call :: nc), g', cursor'. split; [exact Hg'|].
    split; [simpl; rewrite Hc, Hc'; reflexivity|].
    change (length (p :: prefix) + fuel)%nat with (S (length prefix + fuel)).
    cbn [for_await map app].
    rewrite (next_ready c g request cursor Hr), E. rewrite E'.
    rewrite <- app_assoc. cbn [app].
    destruct (for_await fuel c g' _) as [s' [vs e]]. reflexivity.
Qed.

(** C10: pagination stops on a nullish cursor, not a falsy one. After any
    number of cursor-bearing pages [prefix], a page whose cursor field is
    absent or [null] ends the sequence after its batch (however much longer
    the loop could run), with one request per page and no further one; a
    page whose cursor is [0] does not: the loop's next pull dispatches a
    further request, carrying cursor [0]. *)
Theorem searchTokens_stops_on_nullish_cursor c request prefix last rest calls k :
  let pages := map (fun p => page_response (fst p) (Some (JNum (snd p)))) prefix in
  let batches := map (fun p => JArr (fst p)) prefix in
  (exists new_calls,
     for_await (length prefix + 2 + k) c (searchTokens request)
       {| srv_script := (pages ++ page_response last None :: rest)%list;
          srv_calls := calls |}
     = ({| srv_script := rest; srv_calls := (calls ++ new_calls)%list |},
        ((batches ++ [JArr last])%list, LoopDone))
     /\ length new_calls = S (length prefix))
  /\ (exists new_calls,
     for_await (length prefix + 2 + k) c (searchTokens request)
       {| srv_script := (pages ++ page_response last (Some JNull) :: rest)%list;
          srv_calls := calls |}
     = ({| srv_script := rest; srv_calls := (calls ++ new_calls)%list |},
        ((batches ++ [JArr last])%list, LoopDone))
     /\ length new_calls = S (length prefix))
  /\ (exists new_calls call,
     srv_calls (fst (for_await (length prefix + 2) c (searchTokens request)
       {| srv_script := (pages ++ page_response last (Some (JNum 0)) :: rest)%list;
          srv_calls := calls |}))
     = (calls ++ new_calls ++ [call])%list
     /\ length new_calls = S (length prefix)
     /\ call_cursor call = JNum 0).
Proof.
  intros pages batches.
  set (cur0 := match lookup "cursor" request with Some v => v | None => JUndef end).
  assert (H0 : ready (searchTokens request) request cur0) by (left; split; reflexivity).
  assert (Hlen : forall (nc : list (string * RequestInit)) cursor',
             (map call_cursor nc ++ [cursor'] = cur0 :: map (fun p => JNum (snd p)) prefix)%list ->
             length nc = length prefix).
  { intros nc cursor' Hc. apply (f_equal (@length jsval)) in Hc.
    rewrite length_app in Hc. simpl in Hc. rewrite !length_map in Hc. lia. }
  assert (Hstop : forall cu,
             (forall s, searchTokens_next c (SGSuspended request (page_body last cu)) s
                        = (s, Ok (Finished, SGDone))) ->
             exists new_calls,
               for_await (length prefix + 2 + k) c (searchTokens request)
                 {| srv_script := (pages ++ page_response last cu :: rest)%list;
                    srv_calls := calls |}
               = ({| srv_script := rest; srv_calls := (calls ++ new_calls)%list |},
                  ((batches ++ [JArr last])%list, LoopDone))
               /\ length new_calls = S (length prefix)).
  { intros cu Hn.
    destruct (run_prefix c request prefix (searchTokens request) cur0
                (page_response last cu :: rest) calls (2 + k) H0)
      as [nc [g' [cursor' [Hg' [Hc E]]]]].
    destruct (search_iteration_page c request cursor' last cu rest (calls ++ nc)%list)
      as [call [E1 _]].
    exists (nc ++ [call])%list. split.
    - rewrite <- Nat.add_assoc. unfold pages. rewrite E.
      cbn [for_await Nat.add]. rewrite (next_ready c g' request cursor' Hg'), E1.
      cbn [for_await]. rewrite Hn. cbn. rewrite <- app_assoc. reflexivity.
    - rewrite length_app, (Hlen nc cursor' Hc). simpl. lia. }
  split; [apply Hstop; apply next_after_last|].
  split; [apply Hstop; apply next_after_null|].
  destruct (run_prefix c request prefix (searchTokens request) cur0
              (page_response last (Some (JNum 0)) :: rest) calls 2 H0)
    as [nc [g' [cursor' [Hg' [Hc E]]]]].
  destruct (search_iteration_page c request cursor' last (Some (JNum 0)) rest
              (calls ++ nc)%list) as [call0 [E1 _]].
  assert (Hr1 : ready (SGSuspended request (page_body last (Some (JNum 0))))
                      request (JNum 0)) by (right; eauto).
  destruct (search_iteration_records c request (JNum 0)
              {| srv_script := rest; srv_calls := (calls ++ nc ++ [call0])%list |})
    as [call1 [Ec1 Hc1]].
  exists (nc ++ [call0])%list, call1. split; [|split; [|exact Hc1]].
  - unfold pages. rewrite E. cbn [fst].
    cbn [for_await]. rewrite (next_ready c g' request cursor' Hg'), E1.
    rewrite <- app_assoc. cbn [app].
    cbn [for_await]. rewrite (next_ready c _ request (JNum 0) Hr1).
    destruct (search_iteration c request (JNum 0) _) as [s1 [[[v|] g1]|t]] eqn:Es;
      cbn [fst srv_calls] in Ec1 |- *; rewrite Ec1; cbn [srv_calls];
      rewrite <- !app_assoc; reflexivity.
  - rewrite length_app, (Hlen nc cursor' Hc). simpl. lia.
Qed.

(** ** Error normalisation *)



Lemma executeRequest_throw c path config t rest calls :
  exists call,
    executeRequest c path config {| srv_script := FThrow t :: rest; srv_calls := calls |}
    = ({| srv_script := rest; srv_calls := calls ++ [call] |},
       Exn (ThApi (normalizeTransportError t))).
Proof.
  unfold executeRequest, transport_get, transport_post, fetch_get, fetch_post,
    fetch_request, catch, bind, throw, mock_fetch.
  destruct (String.eqb _ "GET"); simpl; eexists; reflexivity.
Qed.

(** C4 (counterexample): a transport override whose call throws a
    [HyperstreamApiError] of status 503 is surfaced with status 503, not 0;
    one that throws a non-[Error] value (the string "ECONNRESET") gives the
    fixed message, not that value. *)
Lemma transport_failure_status_counterexample :
  let c := {| hc_fetch := {| f_baseURL := Some "https://api.test.hyperstream.xyz";
                             f_headers := [] |} |} in
  let e503 := {| ae_message := "Service Unavailable"; ae_status := 503;
                 ae_code := JUndef; ae_details := DJson JUndef;
                 ae_requestId := JNull; ae_causeResponseBody := JUndef |} in
  (exists e, snd (getJson c "/v1/chains"
                    {| srv_script := [FThrow (ThApi e503)]; srv_calls := [] |})
             = Exn (ThApi e) /\ ae_status e = 503 /\ ae_status e <> 0)
  /\ (exists e, snd (getJson c "/v1/chains"
                    {| srv_script := [FThrow (ThForeign (FxValue (JStr "ECONNRESET")))];
                       srv_calls := [] |})
             = Exn (ThApi e)
             /\ ae_message e = "Hyperstream transport request failed"
             /\ ae_message e <> "ECONNRESET").
Proof.
  split; eexists; split; [reflexivity| |reflexivity|]; simpl; split; congruence.
Qed.

(** C4 (amended): a transport failure is surfaced as the error
    [normalizeTransportError] gives: a failure that already is a
    [HyperstreamApiError] unchanged; any other one with status 0, code
    ["TransportError"], details [{ error }] wrapping it, and as message the
    failure's [message] when it is an [Error], the fixed text
    ["Hyperstream transport request failed"] otherwise. *)
Theorem transport_failure_normalized c path config t rest calls :
  exists call e,
    executeRequest c path config {| srv_script := FThrow t :: rest; srv_calls := calls |}
    = ({| srv_script := rest; srv_calls := calls ++ [call] |}, Exn (ThApi e))
    /\ match t with
       | ThApi e0 => e = e0
       | ThForeign x =>
           ae_status e = 0 /\ ae_code e = JStr "TransportError"
           /\ ae_details e = DWrapped x
           /\ ae_message e = match x with
                             | FxError _ m => m
                             | FxValue _ => "Hyperstream transport request failed"
                             end
       end.
Proof.
  destruct (executeRequest_throw c path config t rest calls) as [call E].
  exists call, (normalizeTransportError t). split; [exact E|].
  destruct t as [e0|[n m|v]]; simpl; auto.
Qed.

(** ** Absence and acceptance policies of the facade *)





(** C6: on a 2xx response, [submitDeposit] does not throw and returns [true]
    exactly when the decoded body is an object whose [status] field is the
    string ["accepted"]; an absent, undecodable or other body gives
    [false]. *)
Theorem submitDeposit_accepted_marker c request r rest calls :
  response_ok r = true ->
  exists b,
    snd (submitDeposit c request {| srv_script := FResp r :: rest; srv_calls := calls |})
    = Ok b
    /\ (b = true <-> exists fs, r_json r = Some (JObj fs)
                                /\ lookup "status" fs = Some (JStr "accepted")).
Proof.
  intros Hr. unfold submitDeposit, bind.
  pose proof (postJson_success c "/v1/deposits/submit" request r rest calls Hr) as E.
  destruct (postJson c "/v1/deposits/submit" request
              {| srv_script := FResp r :: rest; srv_calls := calls |}) as [s' o].
  simpl in E. subst o. unfold json_result; simpl.
  destruct (r_json r) as [v|] eqn:Hj.
  - destruct v as [| |bb|n|str|xs|fs]; simpl;
      try (eexists; split; [reflexivity|]; split;
           [discriminate|intros (fs & Hfs & _); discriminate]).
    + destruct bb; simpl; eexists; (split; [reflexivity|]); split;
        try discriminate; intros (fs & Hfs & _); discriminate.
    + destruct (n =? 0); simpl; eexists; (split; [reflexivity|]); split;
        try discriminate; intros (fs & Hfs & _); discriminate.
    + destruct (String.eqb str ""); simpl; eexists; (split; [reflexivity|]); split;
        try discriminate; intros (fs & Hfs & _); discriminate.
    + eexists. split; [reflexivity|]. unfold get_opt, is_accepted.
      split.
      * destruct (lookup "status" fs) as [[| | | |st| |]|] eqn:Hl; try discriminate.
        intros Hst. apply String.eqb_eq in Hst. subst st. eauto.
      * intros (fs' & Hfs & Hl). injection Hfs as <-. rewrite Hl.
        reflexivity.
  - eexists. split; [reflexivity|]. split; [discriminate|].
    intros (fs & Hfs & _); discriminate.
Qed.

(** ** Client configuration *)

(** [strip_trailing_slashes s] is [s] less its maximal run of trailing
    slashes. *)
Lemma strip_trailing_slashes_spec s :
  exists n, s = strip_trailing_slashes s ++ slashes n
            /\ forall pre, strip_trailing_slashes s <> pre ++ "/".
Proof.
  induction s as [|ch rest [n [Hs Hn]]].
  - exists O. split; [reflexivity|]. intros [|x pre] H; discriminate.
  - simpl. destruct (Ascii.eqb ch "/"%char && String.eqb (strip_trailing_slashes rest) "")
      eqn:Hc.
    + apply andb_true_iff in Hc as [Hc1 Hc2].
      apply Ascii.eqb_eq in Hc1. apply String.eqb_eq in Hc2. subst ch.
      exists (S n). split.
      * simpl. rewrite Hs at 1. rewrite Hc2. reflexivity.
      * intros [|x pre] H; discriminate.
    + exists n. split.
      * simpl. rewrite Hs at 1. reflexivity.
      * intros pre H.
        destruct (String.eqb (strip_trailing_slashes rest) "") eqn:He.
        -- apply String.eqb_eq in He. rewrite He in H.
           destruct pre as [|x [|y pre]]; simpl in H; try discriminate.
           injection H as ->. discriminate.
        -- destruct pre as [|x pre]; simpl in H.
           ++ injection H as _ H. rewrite H in He. discriminate.
           ++ injection H as _ H. exact (Hn pre H).
Qed.

(** C7 (counterexample): the base address ["/"] is kept as ["/"], while
    stripping its trailing slashes leaves the empty string. *)
Lemma base_all_slashes_counterexample :
  exists c,
    new_client {| cfg_baseUrl := "/"; cfg_headers := None; cfg_userAgent := None |} = Ok c
    /\ f_baseURL (hc_fetch c) = Some "/"
    /\ strip_trailing_slashes "/" = ""
    /\ f_baseURL (hc_fetch c) <> Some (strip_trailing_slashes "/").
Proof.
  eexists. split; [reflexivity|]. split; [reflexivity|].
  split; [reflexivity|]. simpl. discriminate.
Qed.

(** C7 (amended): for a non-empty base address, the client's base is the
    address less its trailing slashes, or the address itself when it is
    made of slashes only; the client is a value no operation returns
    changed, and every request it sends goes to that base followed by the
    request's path. *)
Theorem client_base_address config :
  cfg_baseUrl config <> "" ->
  let stripped := strip_trailing_slashes (cfg_baseUrl config) in
  let base := if String.eqb stripped "" then cfg_baseUrl config else stripped in
  exists c,
    new_client config = Ok c
    /\ f_baseURL (hc_fetch c) = Some base
    /\ (exists n, cfg_baseUrl config = stripped ++ slashes n)
    /\ (forall pre, stripped <> pre ++ "/")
    /\ (forall url init s, exists init',
          srv_calls (fst (fetch_request (hc_fetch c) url init s))
          = (srv_calls s ++ [((base ++ url)%string, init')])%list).
Proof.
  intros Hne stripped base.
  assert (Hb : String.eqb base "" = false).
  { unfold base. destruct (String.eqb stripped "") eqn:E.
    - apply String.eqb_neq. exact Hne.
    - exact E. }
  destruct (strip_trailing_slashes_spec (cfg_baseUrl config)) as [n [Hs Hn]].
  unfold new_client. apply String.eqb_neq in Hne. rewrite Hne.
  eexists. split; [reflexivity|]. split; [reflexivity|].
  split; [exists n; exact Hs|]. split; [exact Hn|].
  intros url init s. eexists.
  unfold fetch_request, full_url, mock_fetch. simpl. fold stripped. fold base.
  rewrite Hb. destruct (srv_script s) as [|[r|t] l]; reflexivity.
Qed.

Lemma client_base_address_witness :
  "https://api.test.hyperstream.xyz//" <> "" /\
  exists c,
    new_client {| cfg_baseUrl := "https://api.test.hyperstream.xyz//";
                  cfg_headers := None; cfg_userAgent := None |} = Ok c
    /\ f_baseURL (hc_fetch c) = Some "https://api.test.hyperstream.xyz"
    /\ (exists n, "https://api.test.hyperstream.xyz//"
                  = "https://api.test.hyperstream.xyz" ++ slashes n)
    /\ (forall pre, "https://api.test.hyperstream.xyz" <> pre ++ "/")
    /\ (forall url init s, exists init',
          srv_calls (fst (fetch_request (hc_fetch c) url init s))
          = (srv_calls s ++ [(("https://api.test.hyperstream.xyz" ++ url)%string, init')])%list).
Proof.
  split; [discriminate|].
  exact (client_base_address {| cfg_baseUrl := "https://api.test.hyperstream.xyz//";
                                cfg_headers := None; cfg_userAgent := None |}
           ltac:(discriminate)).
Defined.

(** ** Paths and query strings *)

Lemma usp_set_new ps k v :
  ~ In k (map fst ps) -> usp_set ps k v = (ps ++ [(k, v)])%list.
Proof.
  induction ps as [|[k' v'] ps IH]; simpl; intros Hn; [reflexivity|].
  destruct (String.eqb k k') eqn:E.
  - apply String.eqb_eq in E. subst. tauto.
  - rewrite IH by tauto. reflexivity.
Qed.

(** With the distinct keys of [Object.entries], the loop keeps the
    non-nullish entries in order, stringified. *)
Lemma query_params_fold q : forall acc,
  NoDup (map fst q) ->
  (forall k, In k (map fst q) -> ~ In k (map fst acc)) ->
  fold_left (fun params kv =>
               if nullish (snd kv) then params
               else usp_set params (fst kv) (js_to_string (snd kv))) q acc
  = (acc ++ map (fun kv => (fst kv, js_to_string (snd kv)))
                (filter (fun kv => negb (nullish (snd kv))) q))%list.
Proof.
  induction q as [|[k v] q IH]; intros acc Hnd Hdisj; simpl.
  - rewrite app_nil_r. reflexivity.
  - inversion Hnd as [|? ? Hk Hnd']; subst.
    destruct (nullish v); simpl.
    + apply IH; [exact Hnd'|]. intros k' Hin. apply Hdisj. simpl; auto.
    + rewrite usp_set_new by (apply Hdisj; simpl; auto).
      rewrite IH.
      * rewrite <- app_assoc. reflexivity.
      * exact Hnd'.
      * intros k' Hin. rewrite map_app, in_app_iff. simpl.
        intros [H|[H|H]]; [exact (Hdisj k' (or_intror Hin) H)| |exact H].
        subst k'. exact (Hk Hin).
Qed.

Lemma usp_toString_empty ps : usp_toString ps = "" <-> ps = [].
Proof.
  split; [|intros ->; reflexivity].
  destruct ps as [|[k v] ps]; [reflexivity|]. unfold usp_toString. simpl.
  destruct (form_urlencode k) as [|ch t]; simpl;
    destruct (map _ ps); simpl; discriminate.
Qed.

(** C8 (counterexample): a path given with two leading slashes is sent with
    two leading slashes. *)
Lemma double_leading_slash_counterexample :
  buildPathWithQuery "//v1/chains" None = "//v1/chains"
  /\ String.prefix "//" (buildPathWithQuery "//v1/chains" None) = true.
Proof. split; reflexivity. Qed.

(** C8 (amended): the path sent starts with a slash: one is added when the
    path lacks it, and the path is otherwise unchanged (leading slashes it
    already has are kept). With a query, entries whose value is [undefined]
    or [null] are left out, the others are stringified in order, and
    ["?"] with their encoding is appended only when some entry remains. *)
Theorem buildPathWithQuery_spec path q :
  NoDup (map fst q) ->
  let normalizedPath := if String.prefix "/" path then path else "/" ++ path in
  let kept := map (fun kv => (fst kv, js_to_string (snd kv)))
                  (filter (fun kv => negb (nullish (snd kv))) q) in
  String.prefix "/" normalizedPath = true
  /\ ((String.prefix "/" path = true /\ normalizedPath = path)
      \/ (String.prefix "/" path = false /\ normalizedPath = "/" ++ path))
  /\ buildPathWithQuery path None = normalizedPath
  /\ buildPathWithQuery path (Some q)
     = match kept with
       | [] => normalizedPath
       | _ => normalizedPath ++ "?" ++ usp_toString kept
       end.
Proof.
  intros Hnd normalizedPath kept.
  split; [|split; [|split]].
  - unfold normalizedPath. destruct (String.prefix "/" path) eqn:E; [exact E|].
    destruct path; reflexivity.
  - unfold normalizedPath. destruct (String.prefix "/" path); auto.
  - reflexivity.
  - unfold buildPathWithQuery, query_params. fold normalizedPath.
    rewrite (query_params_fold q [] Hnd) by (intros; simpl; tauto).
    simpl. fold kept.
    destruct (String.eqb (usp_toString kept) "") eqn:E.
    + apply String.eqb_eq, usp_toString_empty in E. rewrite E. reflexivity.
    + destruct kept as [|kv ks]; [discriminate|reflexivity].
Qed.

Lemma buildPathWithQuery_spec_witness :
  NoDup (map fst [("limit", JNum 10); ("cursor", JUndef)]) /\
  String.prefix "/" "/v1/chains" = true
  /\ ((String.prefix "/" "v1/chains" = true /\ "/v1/chains" = "v1/chains")
      \/ (String.prefix "/" "v1/chains" = false /\ "/v1/chains" = "/" ++ "v1/chains"))
  /\ buildPathWithQuery "v1/chains" None = "/v1/chains"
  /\ buildPathWithQuery "v1/chains" (Some [("limit", JNum 10); ("cursor", JUndef)])
     = "/v1/chains" ++ "?" ++ usp_toString [("limit", "10")].
Proof.
  assert (H : NoDup (map fst [("limit", JNum 10); ("cursor", JUndef)])).
  { simpl. constructor; [simpl; intros [H|[]]; discriminate|].
    constructor; [intros []|constructor]. }
  split; [exact H|].
  exact (buildPathWithQuery_spec "v1/chains" [("limit", JNum 10); ("cursor", JUndef)] H).
Defined.

(** ** Token lookup *)

Lemma is_hex_digit_spec c : is_hex_digit c = true <-> hex_char c.
Proof.
  unfold is_hex_digit, hex_char.
  rewrite !orb_true_iff, !andb_true_iff, !Nat.leb_le. tauto.
Qed.

Lemma isHexLike_spec value : isHexLike value = true <-> matches_hex_pattern value.
Proof.
  unfold matches_hex_pattern.
  destruct value as [|z [|x [|d rest]]]; simpl;
    try (split; [discriminate|intros (? & ? & H & _); discriminate]).
  rewrite !andb_true_iff, !Ascii.eqb_eq, forallb_forall, is_hex_digit_spec.
  split.
  - intros [[[-> ->] Hd] Hr]. exists d, rest. split; [reflexivity|].
    constructor; [exact Hd|]. apply Forall_forall.
    intros c Hc. apply is_hex_digit_spec, Hr, Hc.
  - intros (d' & rest' & E & Hf). injection E as -> -> -> ->.
    inversion Hf as [|? ? Hd Hr]; subst.
    split; [split; [split; reflexivity|exact Hd]|].
    intros c Hc. apply is_hex_digit_spec. rewrite Forall_forall in Hr. auto.
Qed.

(** The handler of [getToken] sends nothing. *)
Lemma getToken_handler_calls (error : thrown) s :
  srv_calls (fst ((match error with
                   | ThApi e =>
                       if (ae_status e =? 404) || (ae_status e =? 400) then ret JNull
                       else throw error
                   | _ => throw error
                   end) s)) = srv_calls s.
Proof. destruct error as [e|x]; [destruct (_ || _)|]; reflexivity. Qed.

(** C9 (counterexample): the identifier ["\uD800"] (a lone surrogate, the
    bytes ED A0 80) does not match the pattern, yet [getToken] requests no
    lookup-by-symbol path: [encodeURIComponent] throws a [URIError] first,
    and no request is sent. *)
Lemma getToken_lone_surrogate_counterexample :
  let c := {| hc_fetch := {| f_baseURL := Some "https://api.test.hyperstream.xyz";
                             f_headers := [] |} |} in
  let identifier :=
    String (ascii_of_nat 237) (String (ascii_of_nat 160) (String (ascii_of_nat 128) "")) in
  let s := {| srv_script := []; srv_calls := [] |} in
  isHexLike identifier = false
  /\ getToken c 1 identifier s = (s, Exn uri_error)
  /\ srv_calls (fst (getToken c 1 identifier s)) = [].
Proof. split; [reflexivity|]. split; reflexivity. Qed.

(** C9 (amended): [isHexLike] is the pattern [/^0x[0-9a-fA-F]+$/]. For an
    identifier that [encodeURIComponent] accepts (one with no lone
    surrogate), [getToken] sends exactly one request, to the lookup-by-address
    path [/v1/tokens/{chainId}/{identifier}] when the identifier matches the
    pattern and to the lookup-by-symbol path
    [/v1/tokens/{chainId}/symbol/{identifier}] otherwise (the identifier
    URI-component encoded). For any other identifier it throws the
    [URIError] and sends nothing. *)
Theorem getToken_path_choice c chainId identifier s :
  (isHexLike identifier = true <-> matches_hex_pattern identifier)
  /\ (encodeURIComponent identifier = None <-> has_lone_surrogate identifier = true)
  /\ match encodeURIComponent identifier with
     | Some encoded =>
         exists init,
           srv_calls (fst (getToken c chainId identifier s))
           = (srv_calls s ++
              [(full_url (hc_fetch c)
                  (if isHexLike identifier
                   then "/v1/tokens/" ++ Z_to_dec chainId ++ "/" ++ encoded
                   else "/v1/tokens/" ++ Z_to_dec chainId ++ "/symbol/" ++ encoded),
                init)])%list
     | None => getToken c chainId identifier s = (s, Exn uri_error)
     end.
Proof.
  split; [apply isHexLike_spec|].
  split.
  { unfold encodeURIComponent. destruct (has_lone_surrogate identifier); split;
      solve [reflexivity|discriminate]. }
  unfold getToken, token_path.
  destruct (encodeURIComponent identifier) as [encoded|]; [|reflexivity].
  set (p := if isHexLike identifier
            then "/v1/tokens/" ++ Z_to_dec chainId ++ "/" ++ encoded
            else "/v1/tokens/" ++ Z_to_dec chainId ++ "/symbol/" ++ encoded).
  assert (Hp : buildPathWithQuery p None = p).
  { unfold buildPathWithQuery, p. destruct (isHexLike identifier); reflexivity. }
  eexists. rewrite catch_calls by (intros t s'; apply getToken_handler_calls).
  pose proof (executeRequest_call c (buildPathWithQuery p None)
    {| rc_path := p; rc_method := Some "GET"; rc_body := JUndef;
       rc_query := None; rc_headers := None |} s) as E.
  unfold sends_one in E. rewrite Hp in E.
  unfold getJson, dispatchRequest. cbn [rc_path rc_query]. rewrite Hp. exact E.
Qed.

(** ** Witnesses *)



Lemma submitDeposit_accepted_marker_witness :
  let r := {| r_status := 200; r_statusText := "OK";
              r_headers := []; r_json := Some (JObj [("status", JStr "accepted")]) |} in
  response_ok r = true /\
  exists b,
    snd (submitDeposit
           {| hc_fetch := {| f_baseURL := Some "https://api.test.hyperstream.xyz";
                             f_headers := [] |} |}
           (JObj [("intentId", JStr "0x01")])
           {| srv_script := [FResp r]; srv_calls := [] |}) = Ok b
    /\ b = true.
Proof.
  intros r. assert (Hr : response_ok r = true) by reflexivity.
  split; [exact Hr|].
  destruct (submitDeposit_accepted_marker
              {| hc_fetch := {| f_baseURL := Some "https://api.test.hyperstream.xyz";
                                f_headers := [] |} |}
              (JObj [("intentId", JStr "0x01")]) r [] [] Hr) as (b & E & Hb).
  exists b. split; [exact E|]. apply Hb. eexists. split; reflexivity.
Defined.

(** * Further properties of the code *)

(** ** Success path *)

(** X1: a 2xx response makes the dispatcher return the decoded body as it
    is, and [undefined] when the body is empty or not JSON; one request is
    sent. *)
Theorem executeRequest_success_returns_body c path config r rest calls :
  response_ok r = true ->
  exists call,
    executeRequest c path config {| srv_script := FResp r :: rest; srv_calls := calls |}
    = ({| srv_script := rest; srv_calls := calls ++ [call] |},
       Ok (match r_json r with Some v => v | None => JUndef end)).
Proof.
  intros Hr.
  unfold executeRequest, transport_get, transport_post, fetch_get, fetch_post,
    fetch_request, catch, bind, throw, ret, mock_fetch.
  destruct (String.eqb _ "GET"); simpl; rewrite Hr; simpl; eexists; reflexivity.
Qed.

Lemma executeRequest_success_returns_body_witness :
  let r := {| r_status := 204; r_statusText := "No Content"; r_headers := [];
              r_json := None |} in
  response_ok r = true /\
  exists call,
    executeRequest
      {| hc_fetch := {| f_baseURL := Some "https://api.test.hyperstream.xyz";
                        f_headers := [] |} |}
      "/v1/chains"
      {| rc_path := "/v1/chains"; rc_method := Some "GET"; rc_body := JUndef;
         rc_query := None; rc_headers := None |}
      {| srv_script := [FResp r]; srv_calls := [] |}
    = ({| srv_script := []; srv_calls := [] ++ [call] |}, Ok JUndef).
Proof.
  intros r. assert (Hr : response_ok r = true) by reflexivity.
  split; [exact Hr|].
  exact (executeRequest_success_returns_body _ "/v1/chains"
           {| rc_path := "/v1/chains"; rc_method := Some "GET"; rc_body := JUndef;
              rc_query := None; rc_headers := None |} r [] [] Hr).
Defined.

(** ** What leaves the facade *)

Lemma throws_only_ret {A} (P : thrown -> Prop) (a : A) : throws_only P (ret a).
Proof. intros s. exact I. Qed.

Lemma throws_only_throw {A} (P : thrown -> Prop) t :
  P t -> throws_only (A:=A) P (throw t).
Proof. intros Ht s. exact Ht. Qed.

Lemma throws_only_bind {A B} (P : thrown -> Prop) (m : M A) (k : A -> M B) :
  throws_only P m -> (forall a, throws_only P (k a)) ->
  throws_only P (bind m k).
Proof.
  intros Hm Hk s. specialize (Hm s). unfold bind.
  destruct (m s) as [s' [a|t]]; [apply Hk|exact Hm].
Qed.

Lemma throws_only_catch {A} (P : thrown -> Prop) (m : M A) (h : thrown -> M A) :
  throws_only P m -> (forall t, P t -> throws_only P (h t)) ->
  throws_only P (catch m h).
Proof.
  intros Hm Hh s. specialize (Hm s). unfold catch.
  destruct (m s) as [s' [a|t]]; simpl in *; [exact I|apply Hh; exact Hm].
Qed.

Lemma throws_only_catch_all {A} (P : thrown -> Prop) (m : M A) (h : thrown -> M A) :
  (forall t, throws_only P (h t)) -> throws_only P (catch m h).
Proof.
  intros Hh s. unfold catch.
  destruct (m s) as [s' [a|t]]; [exact I|apply Hh].
Qed.

Lemma api_error_of_result_exn result t :
  api_error_of_result result = Exn t -> t = to_primitive_error.
Proof.
  unfold api_error_of_result, new_api_error.
  destruct (to_string_throws _); intros H; inversion H; reflexivity.
Qed.

Lemma executeRequest_throws c path config :
  throws_only (facade_exception false) (executeRequest c path config).
Proof.
  unfold executeRequest. apply throws_only_bind.
  - destruct (String.eqb _ _); apply throws_only_catch_all;
      intros t; apply throws_only_throw; exact I.
  - intros result. destruct (negb _); [|apply throws_only_ret].
    destruct (api_error_of_result result) as [e|t] eqn:E;
      apply throws_only_throw; [exact I|].
    rewrite (api_error_of_result_exn _ _ E). left. reflexivity.
Qed.

Lemma getJson_throws c path : throws_only (facade_exception false) (getJson c path).
Proof. apply executeRequest_throws. Qed.

Lemma postJson_throws c path body :
  throws_only (facade_exception false) (postJson c path body).
Proof. apply executeRequest_throws. Qed.

(** X2: whatever the transport does, every exception that [quotes],
    [getChains] and [submitDeposit] throw is a [HyperstreamApiError] or the
    [TypeError] its constructor throws for a message that does not convert
    to a string; [getIntentStatus], [getToken] and [getIntentByDeposit] may
    throw as well the [URIError] of [encodeURIComponent], and only for an
    argument with a lone surrogate. A transport failure never leaves raw. *)
Theorem facade_throws_only_api_errors c request chainId identifier txHash intent :
  throws_only (facade_exception false) (quotes c request)
  /\ throws_only (facade_exception false) (getChains c)
  /\ throws_only (facade_exception false) (submitDeposit c request)
  /\ throws_only (facade_exception (has_lone_surrogate intent)) (getIntentStatus c intent)
  /\ throws_only (facade_exception (has_lone_surrogate identifier))
       (getToken c chainId identifier)
  /\ throws_only (facade_exception (has_lone_surrogate txHash))
       (getIntentByDeposit c chainId txHash).
Proof.
  split; [apply postJson_throws|].
  split; [apply getJson_throws|].
  split.
  { apply throws_only_bind; [apply postJson_throws|].
    intros a. destruct (negb (truthy a)); apply throws_only_ret. }
  split.
  { unfold getIntentStatus, intent_path, encodeURIComponent.
    destruct (has_lone_surrogate intent).
    - apply throws_only_throw. right. split; reflexivity.
    - apply getJson_throws. }
  split.
  { unfold getToken, token_path, encodeURIComponent.
    destruct (has_lone_surrogate identifier).
    - apply throws_only_throw. right. split; reflexivity.
    - apply throws_only_catch; [apply getJson_throws|].
      intros [e|x] Ht; simpl.
      + destruct (_ || _); [apply throws_only_ret|apply throws_only_throw; exact I].
      + apply throws_only_throw. exact Ht. }
  unfold getIntentByDeposit, by_deposit_path, encodeURIComponent.
  destruct (has_lone_surrogate txHash);
    (apply throws_only_catch;
     [ (apply throws_only_throw; right; split; reflexivity) || apply getJson_throws
     | intros [e|x] Ht; simpl;
       [ destruct (_ =? 404); [apply throws_only_ret|apply throws_only_throw; exact I]
       | apply throws_only_throw; exact Ht ] ]).
Qed.

(** X3: [searchTokens] is the exception: a 2xx search response whose body is
    empty, not JSON or [null] makes the generator throw a [TypeError] from
    [page.data], not a [HyperstreamApiError], before yielding anything. *)
Theorem searchTokens_undecodable_page_type_error c request r rest calls fuel :
  response_ok r = true ->
  nullish (match r_json r with Some v => v | None => JUndef end) = true ->
  exists call msg,
    for_await (S fuel) c (searchTokens request)
      {| srv_script := FResp r :: rest; srv_calls := calls |}
    = ({| srv_script := rest; srv_calls := calls ++ [call] |},
       ([], LoopThrew (ThForeign (FxError "TypeError" msg)))).
Proof.
  intros Hr Hn. cbn -[search_iteration].
  unfold_dispatch. rewrite Hr. simpl. unfold json_result in *.
  simpl. rewrite Hn. eexists. eexists. reflexivity.
Qed.

Lemma searchTokens_undecodable_page_type_error_witness :
  let r := {| r_status := 200; r_statusText := "OK"; r_headers := []; r_json := None |} in
  response_ok r = true /\ nullish JUndef = true /\
  exists call msg,
    for_await 3
      {| hc_fetch := {| f_baseURL := Some "https://api.test.hyperstream.xyz";
                        f_headers := [] |} |}
      (searchTokens [("q", JStr "USDC")])
      {| srv_script := [FResp r]; srv_calls := [] |}
    = ({| srv_script := []; srv_calls := [] ++ [call] |},
       ([], LoopThrew (ThForeign (FxError "TypeError" msg)))).
Proof.
  intros r. split; [reflexivity|]. split; [reflexivity|].
  exact (searchTokens_undecodable_page_type_error _ [("q", JStr "USDC")] r [] [] 2
           eq_refl eq_refl).
Defined.

(** ** Headers *)

Lemma lookup_not_in {A} k (fs : list (string * A)) :
  ~ In k (map fst fs) -> lookup k fs = None.
Proof.
  induction fs as [|[k' v'] fs IH]; simpl; intros Hn; [reflexivity|].
  destruct (String.eqb k k') eqn:E.
  - apply String.eqb_eq in E. subst. tauto.
  - apply IH. tauto.
Qed.

Lemma lookup_obj_set_other {A} (fs : list (string * A)) k k' v :
  k <> k' -> lookup k (obj_set fs k' v) = lookup k fs.
Proof.
  intros Hne. induction fs as [|[k0 v0] fs IH]; simpl.
  - apply String.eqb_neq in Hne. rewrite Hne. reflexivity.
  - destruct (String.eqb k' k0) eqn:E; simpl.
    + apply String.eqb_eq in E. subst k0.
      apply String.eqb_neq in Hne. rewrite Hne. reflexivity.
    + destruct (String.eqb k k0); [reflexivity|exact IH].
Qed.

(** A key of the right-hand object wins; others come from the left. *)
Lemma lookup_obj_merge {A} (a b : list (string * A)) k :
  NoDup (map fst b) ->
  lookup k (obj_merge a b)
  = match lookup k b with Some v => Some v | None => lookup k a end.
Proof.
  revert a. induction b as [|[k' v'] b IH]; intros a Hnd; [reflexivity|].
  inversion Hnd as [|? ? Hk Hnd']; subst.
  change (obj_merge a ((k', v') :: b)) with (obj_merge (obj_set a k' v') b).
  rewrite IH by exact Hnd'. simpl.
  destruct (String.eqb k k') eqn:E.
  - apply String.eqb_eq in E. subst k'. rewrite lookup_not_in by exact Hk.
    apply lookup_obj_set.
  - apply String.eqb_neq in E.
    destruct (lookup k b); [reflexivity|]. apply lookup_obj_set_other, E.
Qed.

(** X6: the requests of [getJson] and [postJson] always carry
    [Accept: application/json], over any default [Accept]; a POST also
    carries [Content-Type: application/json] and the body, a GET no body;
    every other header is the client's default. *)
Theorem getJson_postJson_request_headers c path body s :
  let d := f_headers (hc_fetch c) in
  let url := full_url (hc_fetch c) (buildPathWithQuery path None) in
  (exists sent, sends_one (getJson c path) s (url, sent)
     /\ ri_method sent = Some "GET" /\ ri_body sent = None
     /\ lookup "Accept" (ri_headers sent) = Some "application/json"
     /\ forall k, k <> "Accept" -> lookup k (ri_headers sent) = lookup k d)
  /\ (exists sent, sends_one (postJson c path body) s (url, sent)
     /\ ri_method sent = Some "POST" /\ ri_body sent = Some body
     /\ lookup "Accept" (ri_headers sent) = Some "application/json"
     /\ lookup "Content-Type" (ri_headers sent) = Some "application/json"
     /\ forall k, k <> "Accept" -> k <> "Content-Type" ->
                  lookup k (ri_headers sent) = lookup k d).
Proof.
  intros d url. split.
  - eexists. split; [apply executeRequest_call|]. cbn -[obj_merge lookup].
    change (obj_merge [("Accept", "application/json")] (@nil (string * string)))
      with [("Accept", "application/json")].
    assert (Hn : NoDup (map fst [("Accept", "application/json")]))
      by (constructor; [intros []|constructor]).
    split; [reflexivity|]. split; [reflexivity|].
    split; [rewrite lookup_obj_merge by exact Hn; reflexivity|].
    intros k Hk. rewrite lookup_obj_merge by exact Hn. simpl.
    apply String.eqb_neq in Hk. rewrite Hk. reflexivity.
  - eexists. split; [apply executeRequest_call|]. cbn -[obj_merge lookup].
    change (obj_merge [("Content-Type", "application/json")]
              (obj_merge [("Accept", "application/json")] (@nil (string * string))))
      with [("Content-Type", "application/json"); ("Accept", "application/json")].
    assert (Hn : NoDup (map fst [("Content-Type", "application/json");
                                 ("Accept", "application/json")]))
      by (constructor; [simpl; intros [H|[]]; discriminate|];
          constructor; [intros []|constructor]).
    split; [reflexivity|]. split; [reflexivity|].
    split; [rewrite lookup_obj_merge by exact Hn; reflexivity|].
    split; [rewrite lookup_obj_merge by exact Hn; reflexivity|].
    intros k Hk1 Hk2. rewrite lookup_obj_merge by exact Hn. simpl.
    apply String.eqb_neq in Hk1, Hk2. rewrite Hk1, Hk2. reflexivity.
Qed.

(** X7: the routes of the facade: [quotes] POSTs the request to
    [/v1/quotes] and [getChains] GETs [/v1/chains]; [getIntentStatus] GETs
    [/v1/intent/{intent}] and [getIntentByDeposit] GETs
    [/v1/intent/by-deposit/{chainId}/{txHash}], the identifiers
    URI-component encoded; each sends exactly one request. When
    [encodeURIComponent] throws (an identifier with a lone surrogate), the
    last two throw its [URIError] and send nothing. *)
Theorem facade_routes c request intent chainId txHash s :
  let u p := full_url (hc_fetch c) p in
  (exists sent, sends_one (quotes c request) s (u "/v1/quotes", sent)
                /\ ri_method sent = Some "POST" /\ ri_body sent = Some request)
  /\ (exists sent, sends_one (getChains c) s (u "/v1/chains", sent)
                   /\ ri_method sent = Some "GET")
  /\ match encodeURIComponent intent with
     | Some encoded =>
         exists sent, sends_one (getIntentStatus c intent) s
                        (u ("/v1/intent/" ++ encoded), sent)
                      /\ ri_method sent = Some "GET"
     | None => getIntentStatus c intent s = (s, Exn uri_error)
     end
  /\ match encodeURIComponent txHash with
     | Some encoded =>
         exists sent, sends_one (getIntentByDeposit c chainId txHash) s
                        (u ("/v1/intent/by-deposit/" ++ Z_to_dec chainId ++ "/"
                            ++ encoded), sent)
                      /\ ri_method sent = Some "GET"
     | None => getIntentByDeposit c chainId txHash s = (s, Exn uri_error)
     end.
Proof.
  intros u. split; [|split; [|split]].
  - eexists. split; [apply executeRequest_call|]. split; reflexivity.
  - eexists. split; [apply executeRequest_call|]. reflexivity.
  - unfold getIntentStatus, intent_path.
    destruct (encodeURIComponent intent) as [encoded|]; [|reflexivity].
    eexists. split; [apply executeRequest_call|]. reflexivity.
  - unfold getIntentByDeposit, by_deposit_path.
    destruct (encodeURIComponent txHash) as [encoded|]; [|reflexivity].
    eexists. split.
    2: shelve.
    unfold sends_one, catch.
    pose proof (executeRequest_call c
      (buildPathWithQuery ("/v1/intent/by-deposit/" ++ Z_to_dec chainId ++ "/"
                           ++ encoded) None)
      {| rc_path := "/v1/intent/by-deposit/" ++ Z_to_dec chainId ++ "/" ++ encoded;
         rc_method := Some "GET"; rc_body := JUndef;
         rc_query := None; rc_headers := None |} s) as E.
    unfold sends_one in E. unfold getJson, dispatchRequest. simpl rc_path. simpl rc_query.
    destruct (executeRequest _ _ _ s) as [s' [v|[e|x]]] eqn:Ex; simpl in E |- *;
      try (rewrite E; reflexivity).
    destruct (ae_status e =? 404); simpl; rewrite E; reflexivity.
    Unshelve. reflexivity.
Qed.

(** X8: the error [executeRequest] throws for a non-2xx response whose
    body's [message] and [error] convert to strings carries the response's
    status, its decoded body as [causeResponseBody], the body's [details]
    (the whole body when [details] is absent or null) as [details], the
    [x-request-id] header (or [null]) as [requestId], the body's [code]
    (undefined when absent or null) as [code]; when the body has neither a
    truthy [message] nor a truthy [error], the message is the status text,
    or the default text when that is empty. The request is consumed and
    recorded. *)
Theorem executeRequest_error_metadata c path config r rest calls :
  response_ok r = false ->
  let body := match r_json r with Some v => v | None => JUndef end in
  to_string_throws (get_opt body "message") = false ->
  to_string_throws (get_opt body "error") = false ->
  exists call e,
    executeRequest c path config {| srv_script := FResp r :: rest; srv_calls := calls |}
    = ({| srv_script := rest; srv_calls := calls ++ [call] |}, Exn (ThApi e))
    /\ ae_status e = r_status r
    /\ ae_causeResponseBody e = body
    /\ ae_details e = DJson (if nullish (get_opt body "details") then body
                             else get_opt body "details")
    /\ ae_requestId e = match lookup "x-request-id" (r_headers r) with
                        | Some v => JStr v | None => JNull end
    /\ ae_code e = (if nullish (get_opt body "code") then JUndef
                    else get_opt body "code")
    /\ (truthy (get_opt body "message") = false ->
        truthy (get_opt body "error") = false ->
        ae_message e = if String.eqb (r_statusText r) ""
                       then "Hyperstream API request failed"
                       else r_statusText r).
Proof.
  intros Hr body Hmt Het.
  assert (Hm : forall e : HyperstreamApiError,
             api_error_of_result (json_result r) = Ok e ->
             ae_status e = r_status r
             /\ ae_causeResponseBody e = body
             /\ ae_details e = DJson (if nullish (get_opt body "details") then body
                                      else get_opt body "details")
             /\ ae_requestId e = match lookup "x-request-id" (r_headers r) with
                                 | Some v => JStr v | None => JNull end
             /\ ae_code e = (if nullish (get_opt body "code") then JUndef
                             else get_opt body "code")
             /\ (truthy (get_opt body "message") = false ->
                 truthy (get_opt body "error") = false ->
                 ae_message e = if String.eqb (r_statusText r) ""
                                then "Hyperstream API request failed"
                                else r_statusText r)).
  { intros e He. unfold api_error_of_result, new_api_error, header_get in He.
    cbn [fr_data fr_status fr_raw json_result] in He. fold body in He.
    revert He. destruct (to_string_throws (js_or _ _)); intros He; [discriminate He|].
    injection He as <-.
    cbn [mk_api_error ae_status ae_causeResponseBody ae_details ae_requestId
         ae_code ae_message].
    split; [reflexivity|]. split; [reflexivity|].
    split; [reflexivity|].
    split; [destruct (lookup "x-request-id" (r_headers r)); reflexivity|].
    split; [reflexivity|].
    intros H1 H2. unfold js_or. rewrite H1, H2. cbn [truthy].
    destruct (String.eqb (r_statusText r) ""); reflexivity. }
  assert (Hok : exists e, api_error_of_result (json_result r) = Ok e).
  { unfold api_error_of_result, new_api_error.
    cbn [fr_data fr_status fr_raw json_result]. fold body.
    replace (to_string_throws (js_or _ _)) with false; [eexists; reflexivity|].
    symmetry. unfold js_or.
    destruct (truthy (get_opt body "message")); [exact Hmt|].
    destruct (truthy (get_opt body "error")); [exact Het|].
    destruct (truthy (JStr _)); reflexivity. }
  destruct Hok as [e He].
  destruct (executeRequest_response c path config r rest calls) as [call E].
  rewrite Hr, He in E.
  exists call, e. split; [exact E|]. apply Hm, He.
Qed.

Lemma executeRequest_error_metadata_witness :
  let r := {| r_status := 502; r_statusText := "Bad Gateway";
              r_headers := [("x-request-id", "req-1")];
              r_json := Some (JObj [("code", JNull)]) |} in
  response_ok r = false /\
  exists call e,
    executeRequest
      {| hc_fetch := {| f_baseURL := Some "https://api.test.hyperstream.xyz";
                        f_headers := [] |} |}
      "/v1/chains"
      {| rc_path := "/v1/chains"; rc_method := Some "GET"; rc_body := JUndef;
         rc_query := None; rc_headers := None |}
      {| srv_script := [FResp r]; srv_calls := [] |}
    = ({| srv_script := []; srv_calls := [] ++ [call] |}, Exn (ThApi e))
    /\ ae_status e = 502 /\ ae_code e = JUndef /\ ae_requestId e = JStr "req-1"
    /\ ae_message e = "Bad Gateway".
Proof.
  intros r. assert (Hr : response_ok r = false) by reflexivity.
  split; [exact Hr|].
  destruct (executeRequest_error_metadata
              {| hc_fetch := {| f_baseURL := Some "https://api.test.hyperstream.xyz";
                                f_headers := [] |} |}
              "/v1/chains"
              {| rc_path := "/v1/chains"; rc_method := Some "GET"; rc_body := JUndef;
                 rc_query := None; rc_headers := None |}
              r [] [] Hr eq_refl eq_refl)
    as [call [e [He [Hs [_ [_ [Hq [Hc Hm]]]]]]]].
  exists call, e. split; [exact He|]. split; [exact Hs|]. split; [exact Hc|].
  split; [exact Hq|]. apply Hm; reflexivity.
Defined.



(** X11: a transport failure of the underlying fetch (a thrown [Error] or
    any other thrown value) is never taken for an absence by [getToken] or
    [getIntentByDeposit]: both throw the normalized [TransportError] with
    status 0, and the request is recorded. (An identifier that
    [encodeURIComponent] rejects makes them throw its [URIError] before any
    request.) *)
Theorem lookups_rethrow_transport_failure c chainId identifier txHash x rest calls :
  let s := {| srv_script := FThrow (ThForeign x) :: rest; srv_calls := calls |} in
  let e := normalizeTransportError (ThForeign x) in
  ae_status e = 0 /\ ae_code e = JStr "TransportError"
  /\ match token_path chainId identifier with
     | Some _ => exists call, getToken c chainId identifier s
                   = ({| srv_script := rest; srv_calls := calls ++ [call] |}, Exn (ThApi e))
     | None => getToken c chainId identifier s = (s, Exn uri_error)
     end
  /\ match by_deposit_path chainId txHash with
     | Some _ => exists call, getIntentByDeposit c chainId txHash s
                   = ({| srv_script := rest; srv_calls := calls ++ [call] |}, Exn (ThApi e))
     | None => getIntentByDeposit c chainId txHash s = (s, Exn uri_error)
     end.
Proof.
  intros s e. split; [reflexivity|]. split; [reflexivity|].
  split.
  - unfold getToken. destruct (token_path chainId identifier) as [p|]; [|reflexivity].
    unfold catch, getJson, dispatchRequest.
    destruct (executeRequest_throw c (buildPathWithQuery p None)
                {| rc_path := p; rc_method := Some "GET";
                   rc_body := JUndef; rc_query := None; rc_headers := None |}
                (ThForeign x) rest calls) as [call E].
    exists call. cbn [rc_path rc_query]. fold s in E. rewrite E. reflexivity.
  - unfold getIntentByDeposit. destruct (by_deposit_path chainId txHash) as [p|];
      [|reflexivity].
    unfold catch, getJson, dispatchRequest.
    destruct (executeRequest_throw c (buildPathWithQuery p None)
                {| rc_path := p; rc_method := Some "GET";
                   rc_body := JUndef; rc_query := None; rc_headers := None |}
                (ThForeign x) rest calls) as [call E].
    exists call. cbn [rc_path rc_query]. fold s in E. rewrite E. reflexivity.
Qed.

(** *** Percent-encoding *)

Section PercentEncoding.
Local Open Scope nat_scope.

Lemma hex_digit_nat n :
  n < 16 -> nat_of_ascii (hex_digit n) = if Nat.ltb n 10 then 48 + n else 55 + n.
Proof.
  intros Hn. unfold hex_digit.
  destruct (Nat.ltb n 10); apply nat_ascii_embedding; lia.
Qed.

Lemma hex_digit_inj a b :
  a < 16 -> b < 16 -> hex_digit a = hex_digit b -> a = b.
Proof.
  intros Ha Hb H. apply (f_equal nat_of_ascii) in H.
  rewrite (hex_digit_nat a Ha), (hex_digit_nat b Hb) in H.
  destruct (Nat.ltb a 10) eqn:Ea, (Nat.ltb b 10) eqn:Eb;
    apply Nat.ltb_lt in Ea || apply Nat.ltb_ge in Ea;
    apply Nat.ltb_lt in Eb || apply Nat.ltb_ge in Eb; lia.
Qed.

Lemma hex_digit_alnum n : n < 16 -> is_alnum (hex_digit n) = true.
Proof.
  intros Hn. unfold is_alnum. rewrite (hex_digit_nat n Hn).
  destruct (Nat.ltb n 10) eqn:E;
    [apply Nat.ltb_lt in E|apply Nat.ltb_ge in E];
    rewrite !orb_true_iff, !andb_true_iff, !Nat.leb_le; lia.
Qed.

Lemma ascii_div16_lt c : Nat.div (nat_of_ascii c) 16 < 16.
Proof.
  pose proof (nat_ascii_bounded c). apply Nat.Div0.div_lt_upper_bound. lia.
Qed.

Lemma ascii_mod16_lt c : Nat.modulo (nat_of_ascii c) 16 < 16.
Proof. apply Nat.mod_upper_bound. discriminate. Qed.

Lemma list_ascii_of_string_app s t :
  list_ascii_of_string (s ++ t) = (list_ascii_of_string s ++ list_ascii_of_string t)%list.
Proof. induction s as [|c s IH]; simpl; [reflexivity|]. rewrite IH. reflexivity. Qed.

(** One step of [encodeURIComponent] determines its character and the rest. *)
Lemma encode_step_inj c1 c2 r1 r2 :
  (if is_alnum c1 || in_chars c1 "-_.!~*'()" then String c1 "" else percent_byte c1) ++ r1
  = (if is_alnum c2 || in_chars c2 "-_.!~*'()" then String c2 "" else percent_byte c2) ++ r2 ->
  c1 = c2 /\ r1 = r2.
Proof.
  unfold percent_byte.
  destruct (is_alnum c1 || in_chars c1 "-_.!~*'()") eqn:E1,
           (is_alnum c2 || in_chars c2 "-_.!~*'()") eqn:E2;
    cbn [String.append]; intros H; injection H.
  - intros Hr Hc. split; assumption.
  - intros _ Hc. subst c1. discriminate E1.
  - intros _ Hc. subst c2. discriminate E2.
  - intros Hr Hlo Hhi. split; [|exact Hr].
    assert (Hm : Nat.modulo (nat_of_ascii c1) 16 = Nat.modulo (nat_of_ascii c2) 16)
      by (apply hex_digit_inj; [apply ascii_mod16_lt|apply ascii_mod16_lt|exact Hlo]).
    assert (Hd : Nat.div (nat_of_ascii c1) 16 = Nat.div (nat_of_ascii c2) 16)
      by (apply hex_digit_inj; [apply ascii_div16_lt|apply ascii_div16_lt|exact Hhi]).
    rewrite <- (ascii_nat_embedding c1), <- (ascii_nat_embedding c2).
    f_equal. rewrite (Nat.div_mod_eq (nat_of_ascii c1) 16),
                     (Nat.div_mod_eq (nat_of_ascii c2) 16).
    rewrite Hm, Hd. reflexivity.
Qed.

End PercentEncoding.

Lemma encodeURIComponent_some s e :
  encodeURIComponent s = Some e -> has_lone_surrogate s = false /\ e = percent_encode s.
Proof.
  unfold encodeURIComponent. destruct (has_lone_surrogate s); intros H; [discriminate H|].
  injection H as <-. split; reflexivity.
Qed.

Lemma percent_encode_charset s c :
  In c (list_ascii_of_string (percent_encode s)) ->
  (is_alnum c || in_chars c "-_.!~*'()%") = true.
Proof.
  intros Hc.
  induction s as [|d s IH]; simpl in Hc; [destruct Hc|].
  rewrite list_ascii_of_string_app, in_app_iff in Hc.
  destruct Hc as [Hc|Hc]; [|exact (IH Hc)].
  destruct (is_alnum d || in_chars d "-_.!~*'()") eqn:Ed.
  - destruct Hc as [<-|[]].
    apply orb_true_iff in Ed as [Ed|Ed]; apply orb_true_iff; [left; exact Ed|right].
    unfold in_chars in *.
    apply existsb_exists in Ed as [x [Hx Hcx]].
    apply existsb_exists. exists x. split; [|exact Hcx].
    simpl in Hx |- *. tauto.
  - unfold percent_byte in Hc. simpl in Hc.
    destruct Hc as [<-|[<-|[<-|[]]]].
    + reflexivity.
    + rewrite hex_digit_alnum; [reflexivity|apply ascii_div16_lt].
    + rewrite hex_digit_alnum; [reflexivity|apply ascii_mod16_lt].
Qed.

Lemma percent_encode_injective s t : percent_encode s = percent_encode t -> s = t.
Proof.
  revert t. induction s as [|c s IH]; intros [|d t]; simpl; intros H.
  - reflexivity.
  - destruct (is_alnum d || in_chars d "-_.!~*'()"); discriminate H.
  - destruct (is_alnum c || in_chars c "-_.!~*'()"); discriminate H.
  - apply encode_step_inj in H as [-> H]. f_equal. exact (IH t H).
Qed.

(** X12: what [encodeURIComponent] returns holds only ASCII letters and
    digits, the marks [-_.!~*'()] and [%]: an encoded identifier contains no
    [/], [?], [#] or [&], so it stays one path segment of the request URL. *)
Theorem encodeURIComponent_charset s e :
  encodeURIComponent s = Some e ->
  forall c, In c (list_ascii_of_string e) ->
  (is_alnum c || in_chars c "-_.!~*'()%") = true
  /\ c <> "/"%char /\ c <> "?"%char /\ c <> "#"%char /\ c <> "&"%char.
Proof.
  intros He c Hc. apply encodeURIComponent_some in He as [_ ->].
  pose proof (percent_encode_charset s c Hc) as Hset.
  split; [exact Hset|].
  repeat split; intros ->; discriminate Hset.
Qed.

(** X13: [encodeURIComponent] is injective: distinct identifiers give
    distinct encoded path segments. *)
Theorem encodeURIComponent_injective s t e :
  encodeURIComponent s = Some e -> encodeURIComponent t = Some e -> s = t.
Proof.
  intros Hs Ht.
  apply encodeURIComponent_some in Hs as [_ ->].
  apply encodeURIComponent_some in Ht as [_ Ht].
  exact (percent_encode_injective s t Ht).
Qed.

Lemma hex_digit_is_alnum c : is_hex_digit c = true -> is_alnum c = true.
Proof.
  unfold is_hex_digit, is_alnum.
  rewrite !orb_true_iff, !andb_true_iff, !Nat.leb_le. lia.
Qed.

Lemma percent_encode_alnum s :
  forallb is_alnum (list_ascii_of_string s) = true -> percent_encode s = s.
Proof.
  induction s as [|c s IH]; simpl; [reflexivity|].
  intros H. apply andb_true_iff in H as [Hc Hs].
  rewrite Hc. simpl. rewrite IH by exact Hs. reflexivity.
Qed.

(** Letters and digits hold no byte 0xED, so no lone surrogate. *)
Lemma alnum_no_lone_surrogate s :
  forallb is_alnum (list_ascii_of_string s) = true -> has_lone_surrogate s = false.
Proof.
  induction s as [|c s IH]; simpl; [reflexivity|].
  intros H. apply andb_true_iff in H as [Hc Hs].
  rewrite (IH Hs), orb_false_r. destruct s as [|d r]; [reflexivity|].
  replace (Nat.eqb (nat_of_ascii c) 237) with false; [reflexivity|].
  symmetry. apply Nat.eqb_neq. unfold is_alnum in Hc.
  rewrite !orb_true_iff, !andb_true_iff, !Nat.leb_le in Hc. lia.
Qed.

Lemma encodeURIComponent_alnum s :
  forallb is_alnum (list_ascii_of_string s) = true -> encodeURIComponent s = Some s.
Proof.
  intros H. unfold encodeURIComponent.
  rewrite (alnum_no_lone_surrogate s H), (percent_encode_alnum s H). reflexivity.
Qed.

Lemma isHexLike_shape value :
  isHexLike value = true ->
  exists rest, value = String "0" rest
               /\ forallb is_alnum (list_ascii_of_string value) = true.
Proof.
  destruct value as [|z [|x [|d rest]]]; simpl; try discriminate.
  rewrite !andb_true_iff, !Ascii.eqb_eq. intros [[[-> ->] Hd] Hr].
  eexists. split; [reflexivity|]. simpl.
  rewrite (hex_digit_is_alnum d Hd). simpl.
  clear Hd. induction rest as [|c rest IH]; simpl in *; [reflexivity|].
  apply andb_true_iff in Hr as [Hc Hr]. rewrite (hex_digit_is_alnum c Hc). exact (IH Hr).
Qed.

(** X14: [getToken] puts a hex-like identifier (an address) into its path
    unchanged: encoding leaves [0x] followed by hex digits as it is (and
    does not throw). *)
Theorem token_path_address_verbatim chainId identifier :
  isHexLike identifier = true ->
  encodeURIComponent identifier = Some identifier
  /\ token_path chainId identifier
     = Some ("/v1/tokens/" ++ Z_to_dec chainId ++ "/" ++ identifier).
Proof.
  intros H. destruct (isHexLike_shape identifier H) as [rest [_ Ha]].
  pose proof (encodeURIComponent_alnum identifier Ha) as E.
  split; [exact E|]. unfold token_path. rewrite H, E. reflexivity.
Qed.

(** *** Decimal numerals and path segments *)

Lemma digit_char_value n :
  0 <= n -> Z.of_nat (nat_of_ascii (ascii_of_nat (48 + Z.to_nat (n mod 10)))) - 48 = n mod 10.
Proof.
  intros Hn. pose proof (Z.mod_pos_bound n 10 ltac:(lia)).
  rewrite nat_ascii_embedding by lia. lia.
Qed.

Lemma digit_char_is_digit n :
  0 <= n -> is_digit (ascii_of_nat (48 + Z.to_nat (n mod 10))) = true.
Proof.
  intros Hn. pose proof (Z.mod_pos_bound n 10 ltac:(lia)).
  unfold is_digit. rewrite nat_ascii_embedding by lia.
  apply andb_true_iff. split; apply Nat.leb_le; lia.
Qed.

Lemma digits_aux_value f : forall n acc,
  0 <= n < 10 ^ Z.of_nat f ->
  dec_value (digits_aux f n acc) 0 = dec_value acc n.
Proof.
  induction f as [|f IH]; intros n acc Hn; cbn [digits_aux].
  - assert (n = 0) by (rewrite Z.pow_0_r in Hn; lia). subst. reflexivity.
  - destruct (n / 10 =? 0) eqn:E.
    + cbn [dec_value]. rewrite digit_char_value by lia. apply Z.eqb_eq in E.
      rewrite Z.mod_small; [reflexivity|].
      pose proof (Z.div_mod n 10 ltac:(lia)). pose proof (Z.mod_pos_bound n 10 ltac:(lia)). lia.
    + rewrite IH.
      * cbn [dec_value]. rewrite digit_char_value by lia.
        rewrite <- (Z.div_mod n 10) by lia. reflexivity.
      * split; [apply Z.div_pos; lia|].
        apply Z.div_lt_upper_bound; [lia|].
        rewrite Nat2Z.inj_succ, Z.pow_succ_r in Hn by lia. lia.
Qed.

Lemma digits_aux_digits f : forall n acc,
  0 <= n ->
  forall c, In c (list_ascii_of_string (digits_aux f n acc)) ->
  is_digit c = true \/ In c (list_ascii_of_string acc).
Proof.
  induction f as [|f IH]; intros n acc Hn c Hc; cbn [digits_aux] in Hc; [right; exact Hc|].
  destruct (n / 10 =? 0).
  - cbn [list_ascii_of_string In] in Hc. destruct Hc as [<-|Hc]; [left; apply digit_char_is_digit; lia|right; exact Hc].
  - apply IH in Hc; [|apply Z.div_pos; lia].
    destruct Hc as [Hc|[<-|Hc]]; [left; exact Hc|left; apply digit_char_is_digit; lia|right; exact Hc].
Qed.

Lemma log2_fuel m : 0 <= m -> m < 10 ^ Z.of_nat (S (Z.to_nat (Z.log2 m))).
Proof.
  intros Hm. rewrite Nat2Z.inj_succ, Z2Nat.id by apply Z.log2_nonneg.
  destruct (Z.eq_dec m 0) as [->|Hm0]; [simpl; lia|].
  pose proof (Z.log2_spec m ltac:(lia)) as [_ H2].
  eapply Z.lt_le_trans; [exact H2|].
  apply Z.pow_le_mono_l. split; lia.
Qed.

Lemma Z_to_dec_parse n : parse_dec (Z_to_dec n) = n.
Proof.
  unfold Z_to_dec.
  pose proof (digits_aux_value (S (Z.to_nat (Z.log2 (Z.abs n)))) (Z.abs n) ""
                (conj (Z.abs_nonneg n) (log2_fuel _ (Z.abs_nonneg n)))) as V.
  simpl dec_value at 2 in V.
  destruct (n <? 0) eqn:En.
  - cbn [String.append parse_dec]. rewrite Ascii.eqb_refl, V. apply Z.ltb_lt in En. lia.
  - apply Z.ltb_ge in En.
    pose proof (digits_aux_digits (S (Z.to_nat (Z.log2 (Z.abs n)))) (Z.abs n) ""
                  (Z.abs_nonneg n)) as D.
    destruct (digits_aux _ (Z.abs n) "") as [|c r] eqn:Ed.
    + simpl in V |- *. lia.
    + simpl. destruct (Ascii.eqb c "-") eqn:Ec.
      * apply Ascii.eqb_eq in Ec. subst c.
        destruct (D "-"%char (or_introl eq_refl)) as [H|[]]. discriminate H.
      * simpl in V. rewrite V. lia.
Qed.

Lemma Z_to_dec_inj a b : Z_to_dec a = Z_to_dec b -> a = b.
Proof.
  intros H. rewrite <- (Z_to_dec_parse a), <- (Z_to_dec_parse b), H. reflexivity.
Qed.

Lemma Z_to_dec_chars n c :
  In c (list_ascii_of_string (Z_to_dec n)) -> is_digit c = true \/ c = "-"%char.
Proof.
  unfold Z_to_dec. intros Hc.
  assert (D : In c (list_ascii_of_string
                      (digits_aux (S (Z.to_nat (Z.log2 (Z.abs n)))) (Z.abs n) "")) ->
              is_digit c = true \/ c = "-"%char).
  { intros H. destruct (digits_aux_digits _ (Z.abs n) "" (Z.abs_nonneg n) c H)
      as [H'|[]]. left. exact H'. }
  destruct (n <? 0); [|exact (D Hc)].
  cbn [String.append list_ascii_of_string In] in Hc.
  destruct Hc as [<-|Hc]; [right; reflexivity|exact (D Hc)].
Qed.

Lemma Z_to_dec_no_slash n : ~ In "/"%char (list_ascii_of_string (Z_to_dec n)).
Proof. intros H. destruct (Z_to_dec_chars n _ H) as [H'|H']; discriminate H'. Qed.

(** Two segments free of a separator, each followed by it, split the same
    way. *)
Lemma split_at_sep (sep : ascii) a b x y :
  ~ In sep (list_ascii_of_string a) -> ~ In sep (list_ascii_of_string b) ->
  a ++ String sep x = b ++ String sep y -> a = b /\ x = y.
Proof.
  revert b. induction a as [|ca a IH]; intros [|cb b] Ha Hb H; simpl in H.
  - injection H as H. split; [reflexivity|exact H].
  - injection H as Hc _. subst cb. simpl in Hb. tauto.
  - injection H as Hc _. subst ca. simpl in Ha. tauto.
  - injection H as Hc H. subst cb. simpl in Ha, Hb.
    destruct (IH b (fun h => Ha (or_intror h)) (fun h => Hb (or_intror h)) H) as [-> ->].
    split; reflexivity.
Qed.

(** X15: distinct (chain, token identifier) pairs lead [getToken] to
    distinct paths: the chain id is printed without loss, an address path
    never coincides with a symbol path, and each kind is injective. *)
Theorem token_path_injective chainA chainB a b p :
  token_path chainA a = Some p -> token_path chainB b = Some p ->
  chainA = chainB /\ a = b.
Proof.
  unfold token_path. intros HA HB.
  destruct (encodeURIComponent a) as [ea|] eqn:Ea'; [|discriminate HA].
  destruct (encodeURIComponent b) as [eb|] eqn:Eb'; [|discriminate HB].
  apply encodeURIComponent_some in Ea' as [_ ->].
  apply encodeURIComponent_some in Eb' as [_ ->].
  injection HA as HA. injection HB as HB. rewrite <- HB in HA. clear HB.
  destruct (isHexLike a) eqn:Ea, (isHexLike b) eqn:Eb;
    repeat (injection HA as HA);
    apply (split_at_sep "/") in HA as [Hd H];
    try apply Z_to_dec_no_slash; apply Z_to_dec_inj in Hd; (split; [exact Hd|]).
  - exact (percent_encode_injective a b H).
  - destruct (isHexLike_shape a Ea) as [rest [Hr Ha]].
    rewrite (percent_encode_alnum a Ha), Hr in H. discriminate H.
  - destruct (isHexLike_shape b Eb) as [rest [Hr Hb]].
    rewrite (percent_encode_alnum b Hb), Hr in H. discriminate H.
  - cbn [String.append] in H. repeat (injection H as H).
    exact (percent_encode_injective a b H).
Qed.

(** X17: distinct deposits (chain, transaction hash) are looked up by
    [getIntentByDeposit] at distinct paths. *)
Theorem by_deposit_path_injective chainA chainB txA txB p :
  by_deposit_path chainA txA = Some p -> by_deposit_path chainB txB = Some p ->
  chainA = chainB /\ txA = txB.
Proof.
  unfold by_deposit_path. intros HA HB.
  destruct (encodeURIComponent txA) as [ea|] eqn:Ea; [|discriminate HA].
  destruct (encodeURIComponent txB) as [eb|] eqn:Eb; [|discriminate HB].
  apply encodeURIComponent_some in Ea as [_ ->].
  apply encodeURIComponent_some in Eb as [_ ->].
  injection HA as HA. injection HB as HB. rewrite <- HB in HA. clear HB.
  repeat (injection HA as HA).
  apply (split_at_sep "/") in HA as [Hd H]; try apply Z_to_dec_no_slash.
  split; [exact (Z_to_dec_inj _ _ Hd)|exact (percent_encode_injective _ _ H)].
Qed.

Lemma encodeURIComponent_charset_witness :
  encodeURIComponent "a/b" = Some "a%2Fb"
  /\ In "%"%char (list_ascii_of_string "a%2Fb")
  /\ (is_alnum "%" || in_chars "%" "-_.!~*'()%") = true
  /\ "%"%char <> "/"%char /\ "%"%char <> "?"%char /\ "%"%char <> "#"%char
  /\ "%"%char <> "&"%char.
Proof.
  assert (He : encodeURIComponent "a/b" = Some "a%2Fb") by reflexivity.
  assert (H : In "%"%char (list_ascii_of_string "a%2Fb")) by (simpl; auto).
  split; [exact He|]. split; [exact H|].
  exact (encodeURIComponent_charset "a/b" "a%2Fb" He "%" H).
Defined.

Lemma encodeURIComponent_injective_witness :
  encodeURIComponent "sol/usdc" = Some "sol%2Fusdc"
  /\ encodeURIComponent "sol/usdc" = Some "sol%2Fusdc" /\ "sol/usdc" = "sol/usdc".
Proof.
  assert (H : encodeURIComponent "sol/usdc" = Some "sol%2Fusdc") by reflexivity.
  split; [exact H|]. split; [exact H|].
  exact (encodeURIComponent_injective _ _ _ H H).
Defined.

Lemma token_path_address_verbatim_witness :
  isHexLike "0xA0b86991c6218b36c1d19D4a2e9Eb0cE3606eB48" = true
  /\ encodeURIComponent "0xA0b86991c6218b36c1d19D4a2e9Eb0cE3606eB48"
     = Some "0xA0b86991c6218b36c1d19D4a2e9Eb0cE3606eB48"
  /\ token_path 1 "0xA0b86991c6218b36c1d19D4a2e9Eb0cE3606eB48"
     = Some ("/v1/tokens/" ++ Z_to_dec 1 ++ "/"
             ++ "0xA0b86991c6218b36c1d19D4a2e9Eb0cE3606eB48").
Proof.
  assert (H : isHexLike "0xA0b86991c6218b36c1d19D4a2e9Eb0cE3606eB48" = true)
    by reflexivity.
  split; [exact H|]. exact (token_path_address_verbatim 1 _ H).
Defined.

Lemma token_path_injective_witness :
  token_path 1 "USDC" = Some "/v1/tokens/1/symbol/USDC" /\ 1 = 1 /\ "USDC" = "USDC".
Proof.
  assert (H : token_path 1 "USDC" = Some "/v1/tokens/1/symbol/USDC") by reflexivity.
  split; [exact H|]. exact (token_path_injective 1 1 _ _ _ H H).
Defined.

Lemma by_deposit_path_injective_witness :
  by_deposit_path 8453 "0xabc" = Some "/v1/intent/by-deposit/8453/0xabc"
  /\ 8453 = 8453 /\ "0xabc" = "0xabc".
Proof.
  assert (H : by_deposit_path 8453 "0xabc" = Some "/v1/intent/by-deposit/8453/0xabc")
    by reflexivity.
  split; [exact H|]. exact (by_deposit_path_injective 8453 8453 _ _ _ H H).
Defined.

(** *** Requests of the search generator *)

Lemma get_prop_state v k s : fst (get_prop v k s) = s.
Proof. unfold get_prop, throw, ret. destruct (nullish v); reflexivity. Qed.

Lemma search_iteration_call c request cursor s :
  exists sent,
    sends_one (search_iteration c request cursor) s
      (full_url (hc_fetch c) "/v1/tokens/search", sent)
    /\ ri_method sent = Some "POST"
    /\ ri_body sent = Some (JObj (obj_set request "cursor" cursor)).
Proof.
  pose proof (executeRequest_call c "/v1/tokens/search"
    {| rc_path := "/v1/tokens/search"; rc_method := Some "POST";
       rc_body := JObj (obj_set request "cursor" cursor);
       rc_query := None; rc_headers := None |} s) as E.
  eexists. split.
  2: shelve.
  unfold sends_one in E |- *. unfold search_iteration, bind, postJson, dispatchRequest.
  cbn [rc_path rc_query]. change (buildPathWithQuery "/v1/tokens/search" None)
    with "/v1/tokens/search".
  destruct (executeRequest _ _ _ s) as [s' [page|t]]; simpl in E |- *; [|exact E].
  pose proof (get_prop_state page "data" s') as Hg.
  destruct (get_prop page "data" s') as [s'' [d|t]]; simpl in Hg |- *;
    subst s''; exact E.
  Unshelve. split; reflexivity.
Qed.

(** X16: one pull of the [searchTokens] generator sends at most one
    request, and none once the generator is done: the generator does not
    read ahead. The request it sends is a POST to [/v1/tokens/search] whose
    body is the caller's request with only its [cursor] field set. *)
Theorem searchTokens_next_at_most_one_request c g s :
  srv_calls (fst (searchTokens_next c g s)) = srv_calls s
  \/ exists request (cursor : jsval) (sent : RequestInit),
       (g = SGStart request \/ exists page, g = SGSuspended request page)
       /\ sends_one (searchTokens_next c g) s
            (full_url (hc_fetch c) "/v1/tokens/search", sent)
       /\ ri_method sent = Some "POST"
       /\ ri_body sent = Some (JObj (obj_set request "cursor" cursor))
       /\ lookup "cursor" (obj_set request "cursor" cursor) = Some cursor
       /\ forall k, k <> "cursor" ->
                    lookup k (obj_set request "cursor" cursor) = lookup k request.
Proof.
  destruct g as [request|request page|].
  - right. destruct (search_iteration_call c request
      (match lookup "cursor" request with Some v => v | None => JUndef end) s)
      as [sent [Hs [Hm Hb]]].
    do 3 eexists. split; [left; reflexivity|]. split; [exact Hs|].
    split; [exact Hm|]. split; [exact Hb|].
    split; [apply lookup_obj_set|]. intros k Hk. apply lookup_obj_set_other, Hk.
  - cbn [searchTokens_next]. unfold bind at 1.
    pose proof (get_prop_state page "cursor" s) as Hg.
    destruct (get_prop page "cursor" s) as [s' [pc|t]] eqn:Ep;
      simpl in Hg; subst s'; [|left; reflexivity].
    destruct (is_undefined (nullish_coalesce pc JUndef)) eqn:Eu; [left; reflexivity|].
    right. destruct (search_iteration_call c request (nullish_coalesce pc JUndef) s)
      as [sent [Hs [Hm Hb]]].
    do 3 eexists. split; [right; eexists; reflexivity|].
    split; [unfold sends_one in Hs |- *; cbn [searchTokens_next]; unfold bind at 1;
            rewrite Ep, Eu; exact Hs|].
    split; [exact Hm|]. split; [exact Hb|].
    split; [apply lookup_obj_set|]. intros k Hk. apply lookup_obj_set_other, Hk.
  - left. reflexivity.
Qed.

(** *** Requests of a whole [for await] loop *)

Lemma search_iteration_shape c request cursor s :
  exists call,
    srv_calls (fst (search_iteration c request cursor s)) = (srv_calls s ++ [call])%list
    /\ search_request c request call
    /\ ((exists t, snd (search_iteration c request cursor s) = Exn t)
        \/ exists d page, snd (search_iteration c request cursor s)
                          = Ok (Yielded d, SGSuspended request page)
                          /\ nullish page = false).
Proof.
  destruct (search_iteration_call c request cursor s) as [sent [Hs [Hm Hb]]].
  exists (full_url (hc_fetch c) "/v1/tokens/search", sent).
  split; [exact Hs|].
  split; [split; [reflexivity|split; [exact Hm|exists cursor; exact Hb]]|].
  unfold search_iteration, bind, get_prop, ret, throw.
  destruct (postJson c "/v1/tokens/search" (JObj (obj_set request "cursor" cursor)) s)
    as [s' [page|t]]; [|left; eexists; reflexivity].
  destruct (nullish page) eqn:En; [left; eexists; reflexivity|].
  right. do 2 eexists. split; [reflexivity|exact En].
Qed.

Lemma searchTokens_next_shape c request g s :
  gen_of request g ->
  (srv_calls (fst (searchTokens_next c g s)) = srv_calls s
   /\ exists g', snd (searchTokens_next c g s) = Ok (Finished, g'))
  \/ exists call,
       srv_calls (fst (searchTokens_next c g s)) = (srv_calls s ++ [call])%list
       /\ search_request c request call
       /\ ((exists t, snd (searchTokens_next c g s) = Exn t)
           \/ exists d g', snd (searchTokens_next c g s) = Ok (Yielded d, g')
                           /\ gen_of request g').
Proof.
  intros Hg. destruct g as [r|r page|].
  - cbn [gen_of] in Hg. subst r. right. cbn [searchTokens_next].
    destruct (search_iteration_shape c request
      (match lookup "cursor" request with Some v => v | None => JUndef end) s)
      as [call [Hc [Hu [Ht|[d [p [Hy Hp]]]]]]].
    + exists call. split; [exact Hc|]. split; [exact Hu|]. left. exact Ht.
    + exists call. split; [exact Hc|]. split; [exact Hu|]. right.
      do 2 eexists. split; [exact Hy|split; [reflexivity|exact Hp]].
  - destruct Hg as [-> Hg].
    assert (E : searchTokens_next c (SGSuspended request page)
                = if is_undefined (nullish_coalesce (get_opt page "cursor") JUndef)
                  then ret (Finished, SGDone)
                  else search_iteration c request
                         (nullish_coalesce (get_opt page "cursor") JUndef)).
    { cbn [searchTokens_next]. unfold bind at 1, get_prop. rewrite Hg. reflexivity. }
    rewrite E.
    destruct (is_undefined (nullish_coalesce (get_opt page "cursor") JUndef)).
    + left. split; [reflexivity|]. eexists. reflexivity.
    + right.
      destruct (search_iteration_shape c request
        (nullish_coalesce (get_opt page "cursor") JUndef) s)
        as [call [Hc [Hu [Ht|[d [p [Hy Hp]]]]]]].
      * exists call. split; [exact Hc|]. split; [exact Hu|]. left. exact Ht.
      * exists call. split; [exact Hc|]. split; [exact Hu|]. right.
        do 2 eexists. split; [exact Hy|split; [reflexivity|exact Hp]].
  - left. split; [reflexivity|]. eexists. reflexivity.
Qed.

Lemma for_await_requests fuel c request : forall g s,
  gen_of request g ->
  exists sent,
    srv_calls (fst (for_await fuel c g s)) = (srv_calls s ++ sent)%list
    /\ length sent = (length (fst (snd (for_await fuel c g s)))
                      + match snd (snd (for_await fuel c g s)) with
                        | LoopThrew _ => 1 | _ => 0 end)%nat
    /\ Forall (search_request c request) sent.
Proof.
  induction fuel as [|fuel IH]; intros g s Hg.
  - exists []. simpl. split; [symmetry; apply app_nil_r|]. split; constructor.
  - cbn [for_await].
    destruct (searchTokens_next_shape c request g s Hg)
      as [[Hc [g' Hf]]|[call [Hc [Hu [[t Ht]|[d [g' [Hy Hi]]]]]]]];
      destruct (searchTokens_next c g s) as [s1 o] eqn:En;
      cbn [fst snd] in *; subst o.
    + exists []. simpl. split; [rewrite Hc; symmetry; apply app_nil_r|].
      split; constructor.
    + exists [call]. simpl. split; [exact Hc|]. split; [reflexivity|].
      constructor; [exact Hu|constructor].
    + destruct (IH g' s1 Hi) as [sent [Hc' [Hl Hf']]].
      destruct (for_await fuel c g' s1) as [s2 [vs e]].
      cbn [fst snd] in Hc', Hl |- *.
      exists (call :: sent). split.
      * rewrite Hc', Hc, <- app_assoc. reflexivity.
      * split; [simpl; rewrite Hl; reflexivity|]. constructor; [exact Hu|exact Hf'].
Qed.

(** X21: a [for await] loop over [searchTokens(request)] sends only
    requests that POST to [/v1/tokens/search] the request with a cursor set,
    one per batch it receives, plus one when the loop ends by an exception:
    no request is sent that does not produce a batch, except the one that
    failed. *)
Theorem searchTokens_loop_request_count fuel c request s :
  exists sent,
    srv_calls (fst (for_await fuel c (searchTokens request) s)) = (srv_calls s ++ sent)%list
    /\ length sent
       = (length (fst (snd (for_await fuel c (searchTokens request) s)))
          + match snd (snd (for_await fuel c (searchTokens request) s)) with
            | LoopThrew _ => 1 | _ => 0 end)%nat
    /\ Forall (fun call =>
                 fst call = full_url (hc_fetch c) "/v1/tokens/search"
                 /\ ri_method (snd call) = Some "POST"
                 /\ exists cursor,
                      ri_body (snd call) = Some (JObj (obj_set request "cursor" cursor)))
              sent.
Proof. exact (for_await_requests fuel c request (searchTokens request) s eq_refl). Qed.

(** X22: [getToken] and [submitDeposit] send exactly one request whatever
    the server answers, a 404 or a failure included: a GET of the token
    path, and a POST of the deposit to [/v1/deposits/submit]; neither
    retries nor falls back to another route. An identifier that
    [encodeURIComponent] rejects makes [getToken] throw its [URIError]
    without any request. *)
Theorem getToken_submitDeposit_single_request c chainId identifier request s :
  match token_path chainId identifier with
  | Some p => exists sent, sends_one (getToken c chainId identifier) s
                             (full_url (hc_fetch c) p, sent)
                           /\ ri_method sent = Some "GET"
  | None => getToken c chainId identifier s = (s, Exn uri_error)
  end
  /\ (exists sent, sends_one (submitDeposit c request) s
                     (full_url (hc_fetch c) "/v1/deposits/submit", sent)
                   /\ ri_method sent = Some "POST" /\ ri_body sent = Some request).
Proof.
  assert (Hp : forall p, token_path chainId identifier = Some p ->
                         buildPathWithQuery p None = p).
  { intros p. unfold token_path.
    destruct (encodeURIComponent identifier); [|discriminate].
    destruct (isHexLike identifier); intros H; injection H as <-; reflexivity. }
  split.
  - unfold getToken. destruct (token_path chainId identifier) as [p|] eqn:Et;
      [|reflexivity].
    pose proof (executeRequest_call c (buildPathWithQuery p None)
      {| rc_path := p; rc_method := Some "GET";
         rc_body := JUndef; rc_query := None; rc_headers := None |} s) as E.
    rewrite (Hp p eq_refl) in E. eexists. split.
    2: shelve.
    unfold sends_one in E |- *. unfold catch, getJson, dispatchRequest.
    cbn [rc_path rc_query]. rewrite (Hp p eq_refl).
    destruct (executeRequest _ _ _ s) as [s' [v|[e|x]]]; simpl in E |- *;
      try (rewrite E; reflexivity).
    destruct ((ae_status e =? 404) || (ae_status e =? 400)); simpl; rewrite E; reflexivity.
    Unshelve. reflexivity.
  - pose proof (executeRequest_call c "/v1/deposits/submit"
      {| rc_path := "/v1/deposits/submit"; rc_method := Some "POST";
         rc_body := request; rc_query := None; rc_headers := None |} s) as E.
    eexists. split.
    2: shelve.
    unfold sends_one in E |- *. unfold submitDeposit, bind, postJson, dispatchRequest.
    cbn [rc_path rc_query].
    change (buildPathWithQuery "/v1/deposits/submit" None) with "/v1/deposits/submit".
    destruct (executeRequest _ _ _ s) as [s' [v|t]]; simpl in E |- *; [|exact E].
    destruct (negb (truthy v)); exact E.
    Unshelve. split; reflexivity.
Qed.
